(** * The iOS webview message helper (lib/Utils/ios-webview-helper.js)

    A shallow embedding of [createIOSWebviewMessage] and [createWebviewButton]
    together with the part of the JavaScript run time they rest on: values,
    truthiness, property reads, object spread, [JSON.stringify] and
    [JSON.parse].

    Limits of the embedding, once and for all:
    - numbers are the integers ([Z]); fractions, NaN, the infinities and the
      sign of zero are not represented, and an integer is printed in plain
      decimal digits (as JavaScript does below 10^21);
    - a string is a sequence of code units below 256 (Rocq's [string]);
    - functions, symbols, BigInts, accessors, sparse arrays and cyclic
      objects are not values of the embedding; objects are association lists
      in property enumeration order, and a property read sees own properties
      only (none of the names the source reads is inherited);
    - where [JSON.parse] would have to build a value outside these limits
      (a number literal with a fraction or an exponent, an escape that denotes a code
      unit above 255) it answers [Outside], which is neither a result nor an
      exception and is never caught. *)

From Stdlib Require Import String Ascii List ZArith NArith Bool Lia.
Import ListNotations.

Local Open Scope string_scope.
Local Open Scope list_scope.

(** ** JavaScript values *)

Unset Elimination Schemes.

Inductive value : Type :=
| VUndef
| VNull
| VBool (b : bool)
| VNum (n : Z)
| VStr (s : string)
| VArr (elems : list value)
| VObj (props : list (string * value)).

Set Elimination Schemes.

Inductive error : Type := TypeError | SyntaxError.

(** The outcome of evaluating a piece of code. *)
Inductive completion (A : Type) : Type :=
| Normal (a : A)
| Throw (e : error)
| Outside.

Arguments Normal {A} a.
Arguments Throw {A} e.
Arguments Outside {A}.

Definition bind {A B : Type} (c : completion A) (k : A -> completion B)
  : completion B :=
  match c with
  | Normal a => k a
  | Throw e => Throw e
  | Outside => Outside
  end.

Notation "x <- c ;; k" := (bind c (fun x => k))
  (at level 61, c at next level, right associativity).
Notation "' p <- c ;; k" := (bind c (fun x => let p := x in k))
  (at level 61, p pattern, c at next level, right associativity).

(** [try { body } catch (e) { handler }] where the handler ignores [e]. *)
Definition try_catch {A : Type} (body : completion A) (handler : completion A)
  : completion A :=
  match body with
  | Normal a => Normal a
  | Throw _ => handler
  | Outside => Outside
  end.

Fixpoint mapM {A B : Type} (f : A -> completion B) (l : list A)
  : completion (list B) :=
  match l with
  | [] => Normal []
  | a :: t => b <- f a ;; bs <- mapM f t ;; Normal (b :: bs)
  end.

(** [Array.prototype.map] with a callback that may throw and sees the index. *)
Fixpoint mapiM_from {A B : Type} (i : nat) (f : A -> nat -> completion B)
  (l : list A) : completion (list B) :=
  match l with
  | [] => Normal []
  | a :: t => b <- f a i ;; bs <- mapiM_from (S i) f t ;; Normal (b :: bs)
  end.

Definition mapiM {A B : Type} (f : A -> nat -> completion B) (l : list A)
  : completion (list B) := mapiM_from 0 f l.

(** ToBoolean. *)
Definition truthy (v : value) : bool :=
  match v with
  | VUndef | VNull => false
  | VBool b => b
  | VNum n => negb (n =? 0)%Z
  | VStr s => negb (s =? EmptyString)
  | VArr _ | VObj _ => true
  end.

(** [v === "lit"] for a string literal. *)
Definition strict_eq_str (v : value) (lit : string) : bool :=
  match v with
  | VStr s => (s =? lit)
  | _ => false
  end.

(** [v !== undefined]. *)
Definition is_defined (v : value) : bool :=
  match v with
  | VUndef => false
  | _ => true
  end.

Definition nullish (v : value) : bool :=
  match v with
  | VUndef | VNull => true
  | _ => false
  end.

(** ** Decimal digits *)

Definition digit_char (d : N) : ascii := ascii_of_N (48 + d)%N.

Definition is_digit (c : ascii) : bool :=
  let n := N_of_ascii c in (48 <=? n)%N && (n <=? 57)%N.

Definition digit_val (c : ascii) : N := (N_of_ascii c - 48)%N.

Fixpoint digits_fuel (fuel : nat) (n : N) (acc : string) : string :=
  match fuel with
  | O => acc
  | S f =>
      let acc' := String (digit_char (n mod 10)%N) acc in
      if (n <? 10)%N then acc' else digits_fuel f (n / 10)%N acc'
  end.

Definition decimal (n : N) : string :=
  digits_fuel (S (N.to_nat (N.log2 n))) n EmptyString.

(** Number::toString on an integer. *)
Definition number_to_string (z : Z) : string :=
  if (z <? 0)%Z then String "-" (decimal (Z.abs_N z)) else decimal (Z.abs_N z).

Fixpoint read_digits (s : string) (acc : N) : N * string :=
  match s with
  | EmptyString => (acc, EmptyString)
  | String c t =>
      if is_digit c then read_digits t (acc * 10 + digit_val c)%N else (acc, s)
  end.

Fixpoint all_digits (s : string) : bool :=
  match s with
  | EmptyString => true
  | String c t => is_digit c && all_digits t
  end.

(** An array index is the canonical decimal form of an integer below
    2^32 - 1; such keys are enumerated first, in ascending order. *)
Definition array_index (k : string) : option N :=
  match k with
  | EmptyString => None
  | String c t =>
      if all_digits k
         && (negb (Ascii.eqb c "0") || (t =? EmptyString))
      then let n := fst (read_digits k 0) in
           if (n <? 4294967295)%N then Some n else None
      else None
  end.

(** ** Objects *)

Fixpoint own (k : string) (ps : list (string * value)) : option value :=
  match ps with
  | [] => None
  | (k', v) :: t => if k' =? k then Some v else own k t
  end.

Fixpoint replace_own (k : string) (v : value) (ps : list (string * value))
  : list (string * value) :=
  match ps with
  | [] => []
  | (k', v') :: t =>
      if k' =? k then (k', v) :: t else (k', v') :: replace_own k v t
  end.

Fixpoint insert_index (i : N) (k : string) (v : value)
  (ps : list (string * value)) : list (string * value) :=
  match ps with
  | [] => [(k, v)]
  | (k', v') :: t =>
      match array_index k' with
      | Some j =>
          if (j <? i)%N then (k', v') :: insert_index i k v t
          else (k, v) :: ps
      | None => (k, v) :: ps
      end
  end.

(** CreateDataProperty on an ordinary object: an existing key keeps its
    place, a new array index goes among the indices, any other new key goes
    last. *)
Definition define_property (k : string) (v : value)
  (ps : list (string * value)) : list (string * value) :=
  match own k ps with
  | Some _ => replace_own k v ps
  | None =>
      match array_index k with
      | Some i => insert_index i k v ps
      | None => ps ++ [(k, v)]
      end
  end.

(** The value a property read yields on a value that is neither [undefined]
    nor [null], for a name that is not an index, [length] or inherited. *)
Definition field (v : value) (k : string) : value :=
  match v with
  | VObj ps => match own k ps with Some x => x | None => VUndef end
  | _ => VUndef
  end.

(** [v.k]: a TypeError on [undefined] and [null]. *)
Definition get (v : value) (k : string) : completion value :=
  if nullish v then Throw TypeError else Normal (field v k).

Definition has_key (v : value) (k : string) : bool :=
  match v with
  | VObj ps => match own k ps with Some _ => true | None => false end
  | _ => false
  end.

Fixpoint indexed_from {A : Type} (i : nat) (f : A -> value) (l : list A)
  : list (string * value) :=
  match l with
  | [] => []
  | a :: t => (decimal (N.of_nat i), f a) :: indexed_from (S i) f t
  end.

(** The own enumerable properties that [{...v}] copies. *)
Definition own_enumerable (v : value) : list (string * value) :=
  match v with
  | VObj ps => ps
  | VArr l => indexed_from 0 (fun x => x) l
  | VStr s =>
      indexed_from 0 (fun c => VStr (String c EmptyString)) (list_ascii_of_string s)
  | _ => []
  end.

(** [{...target, ...source}] once [target] is built. *)
Definition spread_into (target : list (string * value)) (source : value)
  : list (string * value) :=
  fold_left (fun acc kv => define_property (fst kv) (snd kv) acc)
            (own_enumerable source) target.

(** ** JSON.stringify *)

Definition dquote : ascii := Eval cbv in ascii_of_N 34.
Definition backslash : ascii := Eval cbv in ascii_of_N 92.

Definition hex_char (d : N) : ascii :=
  if (d <? 10)%N then ascii_of_N (48 + d)%N else ascii_of_N (87 + d)%N.

(** One code unit inside a JSON string literal (QuoteJSONString). *)
Definition escape_char (c : ascii) : string :=
  let n := N_of_ascii c in
  if (n =? 34)%N then String backslash (String dquote EmptyString)
  else if (n =? 92)%N then String backslash (String backslash EmptyString)
  else if (n =? 8)%N then String backslash "b"
  else if (n =? 12)%N then String backslash "f"
  else if (n =? 10)%N then String backslash "n"
  else if (n =? 13)%N then String backslash "r"
  else if (n =? 9)%N then String backslash "t"
  else if (n <? 32)%N then
    String backslash
      (String "u" (String "0" (String "0"
        (String (hex_char (n / 16)%N) (String (hex_char (n mod 16)%N) EmptyString)))))
  else String c EmptyString.

Fixpoint escape (s : string) : string :=
  match s with
  | EmptyString => EmptyString
  | String c t => (escape_char c ++ escape t)%string
  end.

Definition quote (s : string) : string :=
  String dquote (escape s ++ String dquote EmptyString)%string.

(** The text of a value in element position: [undefined] is written [null]
    there, and a property whose value is [undefined] is left out. *)
Fixpoint serialize (v : value) : string :=
  match v with
  | VUndef | VNull => "null"
  | VBool true => "true"
  | VBool false => "false"
  | VNum n => number_to_string n
  | VStr s => quote s
  | VArr l => ("[" ++ String.concat "," (map serialize l) ++ "]")%string
  | VObj ps =>
      ("{" ++ String.concat ","
                (flat_map (fun kv =>
                             match kv with
                             | (k, x) =>
                                 match x with
                                 | VUndef => []
                                 | _ => [quote k ++ ":" ++ serialize x]
                                 end
                             end) ps)
           ++ "}")%string
  end.

(** [JSON.stringify(v)] with no replacer and no indentation. *)
Definition JSON_stringify (v : value) : value :=
  match v with
  | VUndef => VUndef
  | _ => VStr (serialize v)
  end.

(** ToString, which [JSON.parse] applies to its argument. *)
Fixpoint to_string (v : value) : string :=
  match v with
  | VUndef => "undefined"
  | VNull => "null"
  | VBool true => "true"
  | VBool false => "false"
  | VNum n => number_to_string n
  | VStr s => s
  | VArr l =>
      String.concat ","
        (map (fun x => match x with
                       | VUndef | VNull => EmptyString
                       | _ => to_string x
                       end) l)
  | VObj _ => "[object Object]"
  end.

(** ** JSON.parse *)

Definition is_ws (c : ascii) : bool :=
  let n := N_of_ascii c in
  (n =? 32)%N || (n =? 9)%N || (n =? 10)%N || (n =? 13)%N.

Fixpoint skip_ws (s : string) : string :=
  match s with
  | EmptyString => EmptyString
  | String c t => if is_ws c then skip_ws t else s
  end.

Definition hex_val (c : ascii) : option N :=
  let n := N_of_ascii c in
  if (48 <=? n)%N && (n <=? 57)%N then Some (n - 48)%N
  else if (97 <=? n)%N && (n <=? 102)%N then Some (n - 87)%N
  else if (65 <=? n)%N && (n <=? 70)%N then Some (n - 55)%N
  else None.

Definition hex4 (a b c d : ascii) : option N :=
  match hex_val a, hex_val b, hex_val c, hex_val d with
  | Some x, Some y, Some z, Some w => Some (((x * 16 + y) * 16 + z) * 16 + w)%N
  | _, _, _, _ => None
  end.

(** The character a backslash followed by [e] stands for. *)
Definition unescape (e : ascii) : option ascii :=
  if (e =? dquote)%char then Some dquote
  else if (e =? backslash)%char then Some backslash
  else if (e =? "/")%char then Some "/"%char
  else if (e =? "b")%char then Some (ascii_of_N 8)
  else if (e =? "f")%char then Some (ascii_of_N 12)
  else if (e =? "n")%char then Some (ascii_of_N 10)
  else if (e =? "r")%char then Some (ascii_of_N 13)
  else if (e =? "t")%char then Some (ascii_of_N 9)
  else None.

Definition push (c : ascii) (r : completion (string * string))
  : completion (string * string) :=
  x <- r ;; Normal (String c (fst x), snd x).

(** The rest of a string literal, after its opening quote: the characters
    it denotes and the input after its closing quote. *)
Fixpoint string_body (s : string) : completion (string * string) :=
  match s with
  | EmptyString => Throw SyntaxError
  | String c t =>
      if (c =? dquote)%char then Normal (EmptyString, t)
      else if (c =? backslash)%char then
        match t with
        | EmptyString => Throw SyntaxError
        | String e t1 =>
            match unescape e with
            | Some c' => push c' (string_body t1)
            | None =>
                if (e =? "u")%char then
                  match t1 with
                  | String h1 (String h2 (String h3 (String h4 t2))) =>
                      match hex4 h1 h2 h3 h4 with
                      | Some n =>
                          if (n <? 256)%N
                          then push (ascii_of_N n) (string_body t2)
                          else Outside
                      | None => Throw SyntaxError
                      end
                  | _ => Throw SyntaxError
                  end
                else Throw SyntaxError
            end
        end
      else if (N_of_ascii c <? 32)%N then Throw SyntaxError
      else push c (string_body t)
  end.

Fixpoint strip_prefix (p s : string) : option string :=
  match p with
  | EmptyString => Some s
  | String a p' =>
      match s with
      | EmptyString => None
      | String b s' => if (a =? b)%char then strip_prefix p' s' else None
      end
  end.

Definition literal (word : string) (v : value) (s : string)
  : completion (value * string) :=
  match strip_prefix word s with
  | Some rest => Normal (v, rest)
  | None => Throw SyntaxError
  end.

(** The integer part of a number literal; [s] starts with a digit.  A
    leading zero stands alone. *)
Definition unsigned (s : string) : completion (N * string) :=
  match s with
  | EmptyString => Throw SyntaxError
  | String c t =>
      let r := if (c =? "0")%char then (0%N, t) else read_digits s 0 in
      match snd r with
      | EmptyString => Normal r
      | String e _ =>
          if (e =? ".")%char || (e =? "e")%char || (e =? "E")%char
          then Outside else Normal r
      end
  end.

Definition parse_number (s : string) : completion (value * string) :=
  match s with
  | EmptyString => Throw SyntaxError
  | String c t =>
      if (c =? "-")%char then
        match t with
        | EmptyString => Throw SyntaxError
        | String d _ =>
            if is_digit d
            then r <- unsigned t ;; Normal (VNum (- Z.of_N (fst r)), snd r)
            else Throw SyntaxError
        end
      else r <- unsigned s ;; Normal (VNum (Z.of_N (fst r)), snd r)
  end.

(** The input after [c], when the input starts with [c]. *)
Definition expect (c : ascii) (s : string) : option string :=
  match s with
  | EmptyString => None
  | String a t => if (a =? c)%char then Some t else None
  end.

Fixpoint parse_value (fuel : nat) (s : string) : completion (value * string) :=
  match fuel with
  | O => Outside
  | S f =>
      match skip_ws s with
      | EmptyString => Throw SyntaxError
      | String c t =>
          if (is_digit c || (c =? "-")%char) then parse_number (String c t)
          else if (c =? dquote)%char then
            x <- string_body t ;; Normal (VStr (fst x), snd x)
          else if (c =? "{")%char then
            match expect "}" (skip_ws t) with
            | Some t' => Normal (VObj [], t')
            | None => parse_members f t []
            end
          else if (c =? "[")%char then
            match expect "]" (skip_ws t) with
            | Some t' => Normal (VArr [], t')
            | None => parse_elements f t []
            end
          else if (c =? "t")%char then literal "rue" (VBool true) t
          else if (c =? "f")%char then literal "alse" (VBool false) t
          else if (c =? "n")%char then literal "ull" VNull t
          else Throw SyntaxError
      end
  end
with parse_elements (fuel : nat) (s : string) (acc : list value)
  : completion (value * string) :=
  match fuel with
  | O => Outside
  | S f =>
      r <- parse_value f s ;;
      let s' := skip_ws (snd r) in
      match expect "," s' with
      | Some t => parse_elements f t (acc ++ [fst r])
      | None =>
          match expect "]" s' with
          | Some t => Normal (VArr (acc ++ [fst r]), t)
          | None => Throw SyntaxError
          end
      end
  end
with parse_members (fuel : nat) (s : string) (acc : list (string * value))
  : completion (value * string) :=
  match fuel with
  | O => Outside
  | S f =>
      match expect dquote (skip_ws s) with
      | None => Throw SyntaxError
      | Some t =>
          k <- string_body t ;;
          match expect ":" (skip_ws (snd k)) with
          | None => Throw SyntaxError
          | Some t1 =>
              r <- parse_value f t1 ;;
              let acc' := define_property (fst k) (fst r) acc in
              let s' := skip_ws (snd r) in
              match expect "," s' with
              | Some t2 => parse_members f t2 acc'
              | None =>
                  match expect "}" s' with
                  | Some t2 => Normal (VObj acc', t2)
                  | None => Throw SyntaxError
                  end
              end
          end
      end
  end.

(** [JSON.parse(text)] with no reviver.  The fuel bounds the depth of the
    calls of the parser; twice the length of the text is enough for every
    text ([parse_fuel_enough]). *)
Definition JSON_parse (text : value) : completion value :=
  let s := to_string text in
  r <- parse_value (2 * String.length s + 2) s ;;
  match skip_ws (snd r) with
  | EmptyString => Normal (fst r)
  | String _ _ => Throw SyntaxError
  end.

(** What a value is after [JSON.parse(JSON.stringify(v))]. *)
Fixpoint json_image (v : value) : value :=
  match v with
  | VUndef => VNull
  | VArr l => VArr (map json_image l)
  | VObj ps =>
      VObj (fold_left (fun acc kv => define_property (fst kv) (snd kv) acc)
              (flat_map (fun kv =>
                           match kv with
                           | (k, x) =>
                               match x with
                               | VUndef => []
                               | _ => [(k, json_image x)]
                               end
                           end) ps)
              [])
  | _ => v
  end.

(** ** The source: lib/Utils/ios-webview-helper.js *)

Notation "v # k" := (field v k) (at level 40, left associativity).

(** [a || b], where evaluating [b] may throw. *)
Definition or_else (a : value) (b : completion value) : completion value :=
  if truthy a then Normal a else b.

(** A destructuring default: [{ k = d } = ...]. *)
Definition default_to (d v : value) : value :=
  if is_defined v then v else d.

(** The object literal [buttonParams] of the [buttons.map] callback. *)
Definition buttonParams (button : value) : completion value :=
  displayText <- get button "displayText" ;;
  display_text <- or_else displayText (get button "text") ;;
  url <- get button "url" ;;
  webviewPresentation <- get button "webviewPresentation" ;;
  webview_presentation <- or_else webviewPresentation (Normal VNull) ;;
  paymentLinkPreview <- get button "paymentLinkPreview" ;;
  payment_link_preview <-
    (if is_defined paymentLinkPreview
     then get button "paymentLinkPreview" else Normal (VBool false)) ;;
  landingPageUrl <- get button "landingPageUrl" ;;
  landing_page_url <- or_else landingPageUrl (get button "url") ;;
  webviewInteraction <- get button "webviewInteraction" ;;
  webview_interaction <-
    (if is_defined webviewInteraction
     then get button "webviewInteraction" else Normal (VBool true)) ;;
  Normal (VObj [("display_text", display_text);
                ("url", url);
                ("webview_presentation", webview_presentation);
                ("payment_link_preview", payment_link_preview);
                ("landing_page_url", landing_page_url);
                ("webview_interaction", webview_interaction)]).

(** [button.type === 'webview' || button.name === 'cta_url']. *)
Definition is_url_button (button : value) : completion bool :=
  type <- get button "type" ;;
  if strict_eq_str type "webview" then Normal true
  else name <- get button "name" ;; Normal (strict_eq_str name "cta_url").

(** The callback of [buttons.map] (lines 32-49). *)
Definition processButton (button : value) : completion value :=
  hit <- is_url_button button ;;
  if (hit : bool) then
    params <- buttonParams button ;;
    Normal (VObj [("name", VStr "cta_url");
                  ("buttonParamsJson", JSON_stringify params)])
  else Normal button.

(** [buttons.map(...)]: only an array has a [map] to call. *)
Definition processedButtons (buttons : value) : completion (list value) :=
  match buttons with
  | VArr l => mapM processButton l
  | _ => Throw TypeError
  end.

Fixpoint filterM {A : Type} (f : A -> completion bool) (l : list A)
  : completion (list A) :=
  match l with
  | [] => Normal []
  | a :: t =>
      keep <- f a ;;
      rest <- filterM f t ;;
      Normal (if (keep : bool) then a :: rest else rest)
  end.

(** [btn => btn.name === 'cta_url'] (line 52). *)
Definition named_cta_url (btn : value) : completion bool :=
  name <- get btn "name" ;; Normal (strict_eq_str name "cta_url").

Definition urlButtons (processed : list value) : completion (list value) :=
  filterM named_cta_url processed.

(** The two right-hand sides inside the [try] block (lines 59-60). *)
Definition canonical_of (params : value) : completion value :=
  url <- get params "url" ;;
  x <- or_else url (get params "landing_page_url") ;;
  or_else x (Normal (VStr EmptyString)).

Definition landing_of (params : value) : completion value :=
  landing <- get params "landing_page_url" ;;
  x <- or_else landing (get params "url") ;;
  or_else x (Normal (VStr EmptyString)).

(** The locals [canonicalUrl] and [landingPageUrl] of the tap target
    callback. *)
Record locals : Type := {
  canonicalUrl : value;
  landingPageUrl : value
}.

Definition initial_locals : locals :=
  {| canonicalUrl := VStr EmptyString; landingPageUrl := VStr EmptyString |}.

(** The [try] block (lines 57-60): the locals when it ends and how it
    ends; a throw keeps the assignments made before it. *)
Definition try_block (button : value) (st : locals)
  : locals * completion unit :=
  match (text <- get button "buttonParamsJson" ;; JSON_parse text) with
  | Throw e => (st, Throw e)
  | Outside => (st, Outside)
  | Normal params =>
      match canonical_of params with
      | Throw e => (st, Throw e)
      | Outside => (st, Outside)
      | Normal c =>
          let st1 := {| canonicalUrl := c; landingPageUrl := landingPageUrl st |} in
          match landing_of params with
          | Throw e => (st1, Throw e)
          | Outside => (st1, Outside)
          | Normal l =>
              ({| canonicalUrl := c; landingPageUrl := l |}, Normal tt)
          end
      end
  end.

(** The callback of [urlButtons.map] (lines 53-71); the [catch] clause is
    empty. *)
Definition tapTarget (button : value) (index : nat) : completion value :=
  let r := try_block button initial_locals in
  _ <- try_catch (snd r) (Normal tt) ;;
  Normal (VObj [("canonical_url", canonicalUrl (fst r));
                ("url_type", VStr "STATIC");
                ("button_index", VNum (Z.of_nat index));
                ("tap_target_format", VNum 1)]).

Definition tapTargetList (urls : list value) : completion (list value) :=
  mapiM tapTarget urls.

(** The object that line 73 serializes. *)
Definition messageParams (targets : list value) : value :=
  VObj [("bottom_sheet",
         VObj [("in_thread_buttons_limit", VNum 3);
               ("divider_indices", VArr [])]);
        ("tap_target_configuration",
         match targets with
         | first :: _ => first
         | [] => VObj []
         end);
        ("tap_target_list", VArr targets)].

(** The header object of lines 101-115. *)
Definition header (imageMessage title subtitle : value)
  : list (string * value) :=
  let h0 := [("hasMediaAttachment", VBool (truthy imageMessage))] in
  let h1 := if truthy imageMessage
            then define_property "imageMessage" imageMessage h0 else h0 in
  let h2 := if truthy title then define_property "title" title h1 else h1 in
  if truthy subtitle then define_property "subtitle" subtitle h2 else h2.

(** The object [interactiveMessage] when line 125 returns it (lines
    83-123). *)
Definition interactiveMessage
  (bodyText footerText title subtitle imageMessage contextInfo : value)
  (processed : list value) (messageParamsJson : value)
  : list (string * value) :=
  let message :=
    [("body", VObj [("text", bodyText)]);
     ("nativeFlowMessage",
      VObj [("buttons", VArr processed);
            ("messageParamsJson", messageParamsJson)]);
     ("contextInfo",
      VObj (spread_into
              [("dataSharingContext",
                VObj [("showMmDisclosure", VBool false)])]
              contextInfo))] in
  let message :=
    if truthy imageMessage || truthy title || truthy subtitle
    then define_property "header"
           (VObj (header imageMessage title subtitle)) message
    else message in
  if truthy footerText
  then define_property "footer" (VObj [("text", footerText)]) message
  else message.

Definition createIOSWebviewMessage (options : value) : completion value :=
  bodyText <- get options "bodyText" ;;
  footerText <- get options "footerText" ;;
  title <- get options "title" ;;
  subtitle <- get options "subtitle" ;;
  imageMessage <- get options "imageMessage" ;;
  buttons <- get options "buttons" ;;
  contextInfo <- get options "contextInfo" ;;
  let buttons := default_to (VArr []) buttons in
  let contextInfo := default_to (VObj []) contextInfo in
  processed <- processedButtons buttons ;;
  urls <- urlButtons processed ;;
  targets <- tapTargetList urls ;;
  let messageParamsJson := JSON_stringify (messageParams targets) in
  Normal (VObj [("interactiveMessage",
                 VObj (interactiveMessage bodyText footerText title subtitle
                         imageMessage contextInfo processed
                         messageParamsJson))]).

(** [createWebviewButton] (lines 141-160). *)
Definition createWebviewButton (options : value) : completion value :=
  text <- get options "text" ;;
  url <- get options "url" ;;
  landingPageUrl <- get options "landingPageUrl" ;;
  webviewInteraction <- get options "webviewInteraction" ;;
  paymentLinkPreview <- get options "paymentLinkPreview" ;;
  webviewPresentation <- get options "webviewPresentation" ;;
  let webviewInteraction := default_to (VBool true) webviewInteraction in
  let paymentLinkPreview := default_to (VBool false) paymentLinkPreview in
  let webviewPresentation := default_to VNull webviewPresentation in
  landing <- or_else landingPageUrl (Normal url) ;;
  Normal (VObj [("type", VStr "webview");
                ("displayText", text);
                ("url", url);
                ("landingPageUrl", landing);
                ("webviewInteraction", webviewInteraction);
                ("paymentLinkPreview", paymentLinkPreview);
                ("webviewPresentation", webviewPresentation)]).

(** ** Induction on values *)

Section ValueInduction.
Variable P : value -> Prop.
Hypothesis P_undef : P VUndef.
Hypothesis P_null : P VNull.
Hypothesis P_bool : forall b, P (VBool b).
Hypothesis P_num : forall n, P (VNum n).
Hypothesis P_str : forall s, P (VStr s).
Hypothesis P_arr : forall l, Forall P l -> P (VArr l).
Hypothesis P_obj : forall ps, Forall (fun kv => P (snd kv)) ps -> P (VObj ps).

Fixpoint value_ind (v : value) : P v :=
  match v with
  | VUndef => P_undef
  | VNull => P_null
  | VBool b => P_bool b
  | VNum n => P_num n
  | VStr s => P_str s
  | VArr l =>
      P_arr l ((fix all (l : list value) : Forall P l :=
                  match l with
                  | [] => Forall_nil _
                  | x :: t => Forall_cons x (value_ind x) (all t)
                  end) l)
  | VObj ps =>
      P_obj ps ((fix all (ps : list (string * value))
                   : Forall (fun kv => P (snd kv)) ps :=
                   match ps with
                   | [] => Forall_nil _
                   | kv :: t => Forall_cons kv (value_ind (snd kv)) (all t)
                   end) ps)
  end.
End ValueInduction.

(** ** Notions used in the proofs *)

(** The test of the [buttons.map] callback on a button that can be read. *)
Definition url_like (b : value) : bool :=
  strict_eq_str (b # "type") "webview" || strict_eq_str (b # "name") "cta_url".

(** [a || b] on values. *)
Definition or_value (a b : value) : value := if truthy a then a else b.

(** The pure reading of [buttonParams] on a button that can be read. *)
Definition params_of (b : value) : value :=
  VObj [("display_text", or_value (b # "displayText") (b # "text"));
        ("url", b # "url");
        ("webview_presentation", or_value (b # "webviewPresentation") VNull);
        ("payment_link_preview",
         if is_defined (b # "paymentLinkPreview")
         then b # "paymentLinkPreview" else VBool false);
        ("landing_page_url", or_value (b # "landingPageUrl") (b # "url"));
        ("webview_interaction",
         if is_defined (b # "webviewInteraction")
         then b # "webviewInteraction" else VBool true)].

Definition normalized (b : value) : value :=
  VObj [("name", VStr "cta_url");
        ("buttonParamsJson", JSON_stringify (params_of b))].

Definition process (b : value) : value :=
  if url_like b then normalized b else b.

Fixpoint mapi_from {A B : Type} (i : nat) (g : A -> nat -> B) (l : list A)
  : list B :=
  match l with
  | [] => []
  | a :: t => g a i :: mapi_from (S i) g t
  end.

(** The tap target of a parsed params object, at an index. *)
Definition target_of (params : value) (index : nat) : value :=
  VObj [("canonical_url",
         or_value (or_value (params # "url") (params # "landing_page_url"))
                  (VStr EmptyString));
        ("url_type", VStr "STATIC");
        ("button_index", VNum (Z.of_nat index));
        ("tap_target_format", VNum 1)].

(** A value that JSON writes and reads back as it is, when it is found as
    the value of a property. *)
Definition primitive (v : value) : bool :=
  match v with
  | VArr _ | VObj _ => false
  | _ => true
  end.

(** What may follow a value inside a text: nothing, a comma or a closing
    bracket. *)
Definition stops (rest : string) : bool :=
  match rest with
  | EmptyString => true
  | String c _ => (c =? ",")%char || (c =? "]")%char || (c =? "}")%char
  end.

Definition value_head (c : ascii) : bool :=
  is_digit c || (c =? "-")%char || (c =? dquote)%char || (c =? "{")%char
  || (c =? "[")%char || (c =? "t")%char || (c =? "f")%char || (c =? "n")%char.

(** A value is read back from any text that starts with its serialization
    and goes on with a separator, given fuel for twice its length. *)
Definition reads_back (v : value) : Prop :=
  forall (fuel : nat) (rest : string),
    stops rest = true ->
    2 * String.length (serialize v) <= fuel ->
    parse_value fuel (serialize v ++ rest)%string = Normal (json_image v, rest).

(** The properties a text mentions: those whose value is not [undefined]. *)
Definition kept (ps : list (string * value)) : list (string * value) :=
  filter (fun kv => is_defined (snd kv)) ps.

Definition member (kv : string * value) : string :=
  (quote (fst kv) ++ ":" ++ serialize (snd kv))%string.

Definition image_entry (kv : string * value) : string * value :=
  (fst kv, json_image (snd kv)).

(** The params object as [JSON.parse] gives it back. *)
Definition parsed_params (b : value) : value := json_image (params_of b).

(** The inputs on which the function runs to its end: an [options] that
    can be read, whose [buttons] is absent or an array of buttons that can
    be read. *)
Definition accepted (options : value) : bool :=
  negb (nullish options)
  && match default_to (VArr []) (options # "buttons") with
     | VArr bs => forallb (fun b => negb (nullish b)) bs
     | _ => false
     end.

Definition buttons_of (options : value) : list value :=
  match default_to (VArr []) (options # "buttons") with
  | VArr bs => bs
  | _ => []
  end.

(** The targets the function derives from the buttons it is given. *)
Definition targets_of (bs : list value) : list value :=
  mapi_from 0 (fun b i => target_of (parsed_params b) i) (filter url_like bs).

(** ** What the claims speak of *)

(** The path from the returned object to the button array. *)
Definition output_buttons (out : value) : value :=
  out # "interactiveMessage" # "nativeFlowMessage" # "buttons".

Definition output_messageParamsJson (out : value) : value :=
  out # "interactiveMessage" # "nativeFlowMessage" # "messageParamsJson".

Definition C1_options : value :=
  VObj [("bodyText", VStr "Hi");
        ("buttons",
         VArr [VObj [("type", VStr "webview"); ("text", VStr "Go");
                     ("url", VStr "https://x.com")];
               VObj [("name", VStr "quick_reply"); ("text", VStr "Later")];
               VObj [("name", VStr "cta_url"); ("displayText", VStr "Shop");
                     ("url", VStr "https://shop.example")]])].

(** The value of a property after [JSON.stringify] and [JSON.parse]: a
    property that is [undefined] is not written, and reads [undefined]. *)
Definition carried (v : value) : value :=
  match v with
  | VUndef => VUndef
  | x => json_image x
  end.





Definition C3_button : value :=
  VObj [("type", VStr "webview"); ("text", VStr "Pay");
        ("url", VStr "https://pay.example"); ("paymentLinkPreview", VBool false)].

Definition C4_button : value :=
  VObj [("type", VStr "webview"); ("text", VStr "Go");
        ("url", VStr EmptyString); ("landingPageUrl", VStr "https://y.com")].

Definition C4_options : value :=
  VObj [("bodyText", VStr "Hi"); ("buttons", VArr [C4_button])].

Definition C5_options : value :=
  VObj [("bodyText", VStr "Hi");
        ("buttons",
         VArr [VObj [("type", VStr "webview"); ("text", VStr "One");
                     ("url", VStr "https://one.example")];
               VObj [("type", VStr "webview"); ("text", VStr "Two");
                     ("url", VStr "https://two.example")]])].



Definition C7_options : value :=
  VObj [("bodyText", VStr "Hi"); ("title", VStr "Offer");
        ("subtitle", VStr EmptyString); ("footerText", VStr "Terms apply")].

(** The merge the specification describes: on each key the caller's entry
    when there is one, the default's otherwise. *)
Definition shallow_merge_spec (base over : list (string * value)) (k : string)
  : option value :=
  match own k over with
  | Some v => Some v
  | None => own k base
  end.

Definition default_contextInfo : list (string * value) :=
  [("dataSharingContext", VObj [("showMmDisclosure", VBool false)])].

Definition C8_options : value :=
  VObj [("bodyText", VStr "Hi");
        ("contextInfo",
         VObj [("mentionedJid", VArr [VStr "123@s.whatsapp.net"]);
               ("dataSharingContext",
                VObj [("showMmDisclosure", VBool true)])])].



Definition C10_options : value :=
  VObj [("buttons",
         VArr [VObj [("name", VStr "cta_url");
                     ("buttonParamsJson", VStr "{not json");
                     ("url", VStr "https://x.com")];
               VObj [("name", VStr "quick_reply")];
               VObj [("type", VStr "webview"); ("url", VStr "https://y.com")]])].

(** ** Further notions: the factory, a second pass, the layout *)

(** The names of the own properties of an object, in their order. *)
Definition keys (v : value) : list string :=
  match v with
  | VObj ps => map fst ps
  | _ => []
  end.

(** The pure reading of [createWebviewButton] on options that can be read. *)
Definition factory_button (o : value) : value :=
  VObj [("type", VStr "webview");
        ("displayText", o # "text");
        ("url", o # "url");
        ("landingPageUrl", or_value (o # "landingPageUrl") (o # "url"));
        ("webviewInteraction", default_to (VBool true) (o # "webviewInteraction"));
        ("paymentLinkPreview", default_to (VBool false) (o # "paymentLinkPreview"));
        ("webviewPresentation", default_to VNull (o # "webviewPresentation"))].

(** The tap target the callback returns when its locals keep their initial
    values. *)
Definition empty_target (index : nat) : value :=
  VObj [("canonical_url", VStr EmptyString);
        ("url_type", VStr "STATIC");
        ("button_index", VNum (Z.of_nat index));
        ("tap_target_format", VNum 1)].

(** What the map makes of a button named "cta_url" that has none of the
    fields the params are built from. *)
Definition bare_button : value :=
  VObj [("name", VStr "cta_url");
        ("buttonParamsJson",
         JSON_stringify
           (VObj [("display_text", VUndef);
                  ("url", VUndef);
                  ("webview_presentation", VNull);
                  ("payment_link_preview", VBool false);
                  ("landing_page_url", VUndef);
                  ("webview_interaction", VBool true)]))].

(** [JSON.parse(button.buttonParamsJson)], the first statement of the
    [try] block. *)
Definition parse_params (button : value) : completion value :=
  text <- get button "buttonParamsJson" ;; JSON_parse text.

Definition X1_options : value :=
  VObj [("text", VStr "Pay"); ("url", VStr "https://pay.example");
        ("webviewInteraction", VBool false)].

Definition X2_options : value :=
  VObj [("text", VStr EmptyString); ("url", VStr "https://pay.example");
        ("webviewPresentation", VNull)].

Definition X3_factory_inputs : list value :=
  [VObj [("text", VStr "One"); ("url", VStr "https://one.example")];
   VObj [("text", VStr "Two"); ("url", VStr "https://two.example");
         ("landingPageUrl", VStr "https://two.example/landing")]].


Definition X5_button : value :=
  VObj [("name", VStr "cta_url"); ("text", VStr "Open")].

Definition X6_options : value :=
  VObj [("bodyText", VStr "Hi");
        ("buttons",
         VArr [VObj [("name", VStr "quick_reply"); ("text", VStr "Later")];
               VObj [("type", VStr "webview"); ("text", VStr "Go");
                     ("url", VStr "https://x.com")]])].

Definition X6_button : value :=
  VObj [("type", VStr "webview"); ("text", VStr "Go");
        ("url", VStr "https://x.com")].

Definition X7_options : value :=
  VObj [("bodyText", VStr "Hi");
        ("buttons",
         VArr [VObj [("type", VStr "webview"); ("text", VStr "Go");
                     ("url", VStr "https://x.com")];
               VObj [("name", VStr "quick_reply"); ("text", VStr "Later")]])].

Definition X8_button : value :=
  VObj [("name", VStr "cta_url"); ("buttonParamsJson", VStr "{not json")].

Definition X8_null_button : value :=
  VObj [("name", VStr "cta_url"); ("buttonParamsJson", VStr "null")].

Definition X8_params : value :=
  VObj [("landing_page_url", VStr "https://x.com/landing")].

Definition X8_parsed_button : value :=
  VObj [("name", VStr "cta_url");
        ("buttonParamsJson", JSON_stringify X8_params)].

Definition X9_options : value :=
  VObj [("bodyText", VStr "Hi");
        ("buttons",
         VArr [VObj [("name", VStr "quick_reply"); ("text", VStr "Yes")];
               VStr "plain"])].

Definition X10_options : value :=
  VObj [("bodyText", VStr "Hi"); ("subtitle", VStr "Sub");
        ("imageMessage", VObj [("url", VStr "https://img.example/a.png")]);
        ("footerText", VStr "Foot")].

Definition X11_options : value :=
  VObj [("bodyText", VStr "Hi"); ("contextInfo", VNull)].

(** * Properties *)

(** ** The completion monad *)

Lemma bind_normal {A B : Type} (c : completion A) (k : A -> completion B) (b : B) :
  bind c k = Normal b -> exists a, c = Normal a /\ k a = Normal b.
Proof.
  destruct c as [a | e |]; simpl; intro H; try discriminate.
  exists a; split; [reflexivity | exact H].
Qed.

(** ** Decimal digits are read back *)

Lemma digit_char_code (d : N) :
  (d < 10)%N -> N_of_ascii (digit_char d) = (48 + d)%N.
Proof.
  intro H. unfold digit_char. apply N_ascii_embedding. lia.
Qed.

Lemma digit_char_is_digit (d : N) : (d < 10)%N -> is_digit (digit_char d) = true.
Proof.
  intro H. unfold is_digit. rewrite digit_char_code by assumption.
  apply andb_true_intro; split; apply N.leb_le; lia.
Qed.

Lemma digit_char_val (d : N) : (d < 10)%N -> digit_val (digit_char d) = d.
Proof.
  intro H. unfold digit_val. rewrite digit_char_code by assumption. lia.
Qed.

Lemma digit_char_zero (d : N) :
  (0 < d < 10)%N -> (digit_char d =? "0")%char = false.
Proof.
  intro H. apply Ascii.eqb_neq. intro E.
  apply (f_equal N_of_ascii) in E.
  rewrite digit_char_code in E by lia.
  change (N_of_ascii "0"%char) with 48%N in E. lia.
Qed.

Lemma log2_tenth (n : N) : (10 <= n)%N -> (N.log2 (n / 10) < N.log2 n)%N.
Proof.
  intro H.
  assert (Hhalf : (N.log2 (n / 2) < N.log2 n)%N).
  { rewrite <- N.div2_div, N.div2_spec, N.log2_shiftr.
    assert (3 <= N.log2 n)%N.
    { change 3%N with (N.log2 10). apply N.log2_le_mono. exact H. }
    lia. }
  eapply N.le_lt_trans; [| exact Hhalf].
  apply N.log2_le_mono, N.div_le_compat_l. lia.
Qed.

Lemma digits_fuel_app (fuel : nat) (n : N) (acc rest : string) :
  (digits_fuel fuel n acc ++ rest)%string = digits_fuel fuel n (acc ++ rest)%string.
Proof.
  revert n acc. induction fuel as [| f IH]; intros n acc; simpl.
  - reflexivity.
  - destruct (n <? 10)%N; [reflexivity | apply IH].
Qed.

Lemma digits_fuel_spec (fuel : nat) :
  forall (n : N) (tail : string),
    (N.to_nat (N.log2 n) < fuel)%nat ->
    exists c t,
      digits_fuel fuel n tail = String c t
      /\ is_digit c = true
      /\ ((0 < n)%N -> (c =? "0")%char = false)
      /\ exists k, forall a,
          read_digits (String c t) a = read_digits tail (a * 10 ^ k + n)%N.
Proof.
  induction fuel as [| f IH]; intros n tail Hfuel; [lia |].
  simpl digits_fuel.
  assert (Hmod : (n mod 10 < 10)%N) by (apply N.mod_lt; lia).
  destruct (n <? 10)%N eqn:Hsmall.
  - apply N.ltb_lt in Hsmall.
    rewrite N.mod_small by assumption.
    exists (digit_char n), tail. repeat split.
    + apply digit_char_is_digit; assumption.
    + intro Hpos. apply digit_char_zero; lia.
    + exists 1%N. intro a. simpl read_digits.
      rewrite digit_char_is_digit, digit_char_val by assumption.
      f_equal.
  - apply N.ltb_ge in Hsmall.
    destruct (IH (n / 10)%N (String (digit_char (n mod 10)) tail))
      as (c & t & Heq & Hdig & Hlead & k & Hread).
    { pose proof (log2_tenth n Hsmall). lia. }
    exists c, t. repeat split; try assumption.
    + intros _. apply Hlead.
      apply N.div_str_pos; lia.
    + exists (k + 1)%N. intro a. rewrite Hread. simpl read_digits.
      rewrite digit_char_is_digit, digit_char_val by assumption.
      f_equal. rewrite N.pow_add_r.
      pose proof (N.div_mod n 10). lia.
Qed.

Lemma decimal_spec (n : N) (rest : string) :
  exists c t,
    (decimal n ++ rest)%string = String c t
    /\ is_digit c = true
    /\ ((0 < n)%N -> (c =? "0")%char = false)
    /\ read_digits (String c t) 0 = read_digits rest n.
Proof.
  unfold decimal. rewrite digits_fuel_app. simpl append.
  destruct (digits_fuel_spec (S (N.to_nat (N.log2 n))) n rest)
    as (c & t & Heq & Hdig & Hlead & k & Hread); [lia |].
  exists c, t. repeat split; try assumption.
  rewrite Hread. f_equal.
Qed.

Lemma decimal_zero : decimal 0 = "0".
Proof. reflexivity. Qed.

(** ** Strings *)

Lemma append_assoc (a b c : string) :
  ((a ++ b) ++ c)%string = (a ++ (b ++ c))%string.
Proof.
  induction a as [| x a IH]; simpl; [reflexivity | now rewrite IH].
Qed.

Lemma append_empty (a : string) : (a ++ EmptyString)%string = a.
Proof.
  induction a as [| x a IH]; simpl; [reflexivity | now rewrite IH].
Qed.

Lemma length_append (a b : string) :
  String.length (a ++ b)%string = String.length a + String.length b.
Proof.
  induction a as [| x a IH]; simpl; [reflexivity | now rewrite IH].
Qed.

(** ** String literals are read back *)

Lemma string_body_escape_char (c : ascii) (rest : string) :
  string_body (escape_char c ++ rest)%string = push c (string_body rest).
Proof.
  destruct c as [[] [] [] [] [] [] [] []]; reflexivity.
Qed.

Lemma string_body_escape (s rest : string) :
  string_body (escape s ++ String dquote rest)%string = Normal (s, rest).
Proof.
  induction s as [| c s IH]; [reflexivity |].
  simpl escape. rewrite append_assoc, string_body_escape_char, IH.
  reflexivity.
Qed.

(** ** Numbers are read back *)


Lemma stops_cases (rest : string) :
  stops rest = true ->
  rest = EmptyString
  \/ exists t, rest = String "," t \/ rest = String "]" t \/ rest = String "}" t.
Proof.
  destruct rest as [| c t]; [now left |].
  simpl. intro H. right. exists t.
  apply orb_prop in H. destruct H as [H | H].
  - apply orb_prop in H. destruct H as [H | H];
      apply Ascii.eqb_eq in H; subst; auto.
  - apply Ascii.eqb_eq in H; subst; auto.
Qed.

Lemma read_digits_stops (rest : string) (n : N) :
  stops rest = true -> read_digits rest n = (n, rest).
Proof.
  intro H. destruct (stops_cases rest H) as [-> | (t & [-> | [-> | ->]])];
    reflexivity.
Qed.

Lemma unsigned_decimal (n : N) (rest : string) :
  stops rest = true ->
  unsigned (decimal n ++ rest)%string = Normal (n, rest).
Proof.
  intro Hstop.
  destruct (decimal_spec n rest) as (c & t & Heq & Hdig & Hlead & Hread).
  rewrite Heq. unfold unsigned.
  assert (Hr : (if (c =? "0")%char then (0%N, t) else read_digits (String c t) 0)
               = (n, rest)).
  { destruct (N.eq_dec n 0) as [-> | Hn].
    - rewrite decimal_zero in Heq. simpl in Heq.
      injection Heq as <- <-. reflexivity.
    - rewrite Hlead by lia. rewrite Hread.
      apply read_digits_stops. exact Hstop. }
  rewrite Hr. simpl snd.
  destruct (stops_cases rest Hstop) as [-> | (t' & [-> | [-> | ->]])];
    reflexivity.
Qed.

Lemma parse_number_spec (z : Z) (rest : string) :
  stops rest = true ->
  parse_number (number_to_string z ++ rest)%string = Normal (VNum z, rest).
Proof.
  intro Hstop. unfold number_to_string.
  destruct (z <? 0)%Z eqn:Hneg.
  - apply Z.ltb_lt in Hneg. simpl.
    destruct (decimal_spec (Z.abs_N z) rest) as (c & t & Heq & Hdig & _).
    pose proof (unsigned_decimal (Z.abs_N z) rest Hstop) as Hu.
    rewrite Heq in *. rewrite Hdig, Hu. simpl.
    replace (- Z.of_N (Z.abs_N z))%Z with z by (rewrite N2Z.inj_abs_N; lia).
    reflexivity.
  - apply Z.ltb_ge in Hneg.
    destruct (decimal_spec (Z.abs_N z) rest) as (c & t & Heq & Hdig & _).
    pose proof (unsigned_decimal (Z.abs_N z) rest Hstop) as Hu.
    rewrite Heq in *. unfold parse_number.
    assert (Hminus : (c =? "-")%char = false).
    { apply Ascii.eqb_neq. intros ->. discriminate Hdig. }
    rewrite Hminus, Hu. simpl.
    replace (Z.of_N (Z.abs_N z)) with z by (rewrite N2Z.inj_abs_N; lia).
    reflexivity.
Qed.

Lemma number_to_string_head (z : Z) (rest : string) :
  exists c t,
    (number_to_string z ++ rest)%string = String c t
    /\ (is_digit c || (c =? "-")%char) = true.
Proof.
  unfold number_to_string. destruct (z <? 0)%Z.
  - simpl. eexists _, _. split; reflexivity.
  - destruct (decimal_spec (Z.abs_N z) rest) as (c & t & Heq & Hdig & _).
    exists c, t. split; [exact Heq | now rewrite Hdig].
Qed.

Lemma number_head_not_ws (c : ascii) :
  (is_digit c || (c =? "-")%char) = true -> is_ws c = false.
Proof.
  destruct c as [[] [] [] [] [] [] [] []]; simpl; intro H;
    reflexivity || discriminate H.
Qed.

(** ** Values are read back *)


Lemma value_head_facts (c : ascii) :
  value_head c = true ->
  is_ws c = false /\ (c =? "]")%char = false /\ (c =? "}")%char = false.
Proof.
  destruct c as [[] [] [] [] [] [] [] []]; simpl; intro H;
    (discriminate H || (repeat split; reflexivity)).
Qed.

Lemma serialize_head (v : value) (rest : string) :
  exists c t, (serialize v ++ rest)%string = String c t /\ value_head c = true.
Proof.
  destruct v as [| | [] | n | s | l | ps]; simpl;
    try (eexists _, _; split; reflexivity).
  destruct (number_to_string_head n rest) as (c & t & Heq & Hc).
  exists c, t. split; [exact Heq |].
  unfold value_head. rewrite Hc. reflexivity.
Qed.

Lemma serialize_length (v : value) : 1 <= String.length (serialize v).
Proof.
  destruct (serialize_head v EmptyString) as (c & t & Heq & _).
  rewrite append_empty in Heq. rewrite Heq. simpl. lia.
Qed.

Lemma parse_value_S (f : nat) (s : string) :
  parse_value (S f) s =
  match skip_ws s with
  | EmptyString => Throw SyntaxError
  | String c t =>
      if (is_digit c || (c =? "-")%char) then parse_number (String c t)
      else if (c =? dquote)%char then
        x <- string_body t ;; Normal (VStr (fst x), snd x)
      else if (c =? "{")%char then
        match expect "}" (skip_ws t) with
        | Some t' => Normal (VObj [], t')
        | None => parse_members f t []
        end
      else if (c =? "[")%char then
        match expect "]" (skip_ws t) with
        | Some t' => Normal (VArr [], t')
        | None => parse_elements f t []
        end
      else if (c =? "t")%char then literal "rue" (VBool true) t
      else if (c =? "f")%char then literal "alse" (VBool false) t
      else if (c =? "n")%char then literal "ull" VNull t
      else Throw SyntaxError
  end.
Proof. reflexivity. Qed.

Lemma parse_elements_S (f : nat) (s : string) (acc : list value) :
  parse_elements (S f) s acc =
  (r <- parse_value f s ;;
   let s' := skip_ws (snd r) in
   match expect "," s' with
   | Some t => parse_elements f t (acc ++ [fst r])
   | None =>
       match expect "]" s' with
       | Some t => Normal (VArr (acc ++ [fst r]), t)
       | None => Throw SyntaxError
       end
   end).
Proof. reflexivity. Qed.

Lemma parse_members_S (f : nat) (s : string) (acc : list (string * value)) :
  parse_members (S f) s acc =
  match expect dquote (skip_ws s) with
  | None => Throw SyntaxError
  | Some t =>
      k <- string_body t ;;
      match expect ":" (skip_ws (snd k)) with
      | None => Throw SyntaxError
      | Some t1 =>
          r <- parse_value f t1 ;;
          let acc' := define_property (fst k) (fst r) acc in
          let s' := skip_ws (snd r) in
          match expect "," s' with
          | Some t2 => parse_members f t2 acc'
          | None =>
              match expect "}" s' with
              | Some t2 => Normal (VObj acc', t2)
              | None => Throw SyntaxError
              end
          end
      end
  end.
Proof. reflexivity. Qed.


Lemma skip_ws_value (v : value) (rest : string) :
  skip_ws (serialize v ++ rest)%string = (serialize v ++ rest)%string.
Proof.
  destruct (serialize_head v rest) as (c & t & Heq & Hc).
  rewrite Heq. simpl. destruct (value_head_facts c Hc) as (-> & _). reflexivity.
Qed.

Lemma expect_close_value (v : value) (rest : string) :
  expect "]" (skip_ws (serialize v ++ rest)%string) = None.
Proof.
  rewrite skip_ws_value.
  destruct (serialize_head v rest) as (c & t & Heq & Hc).
  rewrite Heq. simpl. destruct (value_head_facts c Hc) as (_ & -> & _). reflexivity.
Qed.

#[local] Arguments String.concat : simpl never.

Lemma concat_single (sep a : string) : String.concat sep [a] = a.
Proof. reflexivity. Qed.

Lemma concat_cons2 (sep a b : string) (l : list string) :
  String.concat sep (a :: b :: l) = (a ++ sep ++ String.concat sep (b :: l))%string.
Proof. reflexivity. Qed.

Lemma length_sep (a b : string) :
  String.length (a ++ "," ++ b)%string = String.length a + 1 + String.length b.
Proof. rewrite length_append. simpl. lia. Qed.

Ltac parse_step :=
  repeat (progress (simpl skip_ws; simpl expect; simpl bind; simpl fst;
                    simpl snd; cbv beta iota zeta)).

Lemma parse_elements_spec (l : list value) :
  Forall reads_back l ->
  forall (x : value) (acc : list value) (fuel : nat) (rest : string),
    reads_back x ->
    2 * String.length (String.concat "," (map serialize (x :: l))) + 1 <= fuel ->
    parse_elements fuel
      (String.concat "," (map serialize (x :: l)) ++ String "]" rest)%string acc
    = Normal (VArr (acc ++ map json_image (x :: l)), rest).
Proof.
  induction 1 as [| y l Hy Hl IH]; intros x acc fuel rest Hx Hfuel.
  - simpl map in *. rewrite concat_single in *.
    destruct fuel as [| f]; [lia |].
    rewrite parse_elements_S, Hx by (reflexivity || lia).
    reflexivity.
  - simpl map in *. rewrite concat_cons2 in *.
    rewrite length_sep in Hfuel.
    destruct fuel as [| f]; [lia |].
    rewrite parse_elements_S, append_assoc.
    simpl append at 2.
    rewrite Hx by (reflexivity || lia).
    parse_step.
    rewrite (IH y (acc ++ [json_image x]) f rest Hy) by (simpl map; lia).
    rewrite <- app_assoc. reflexivity.
Qed.


Lemma members_kept (ps : list (string * value)) :
  flat_map (fun kv =>
              match kv with
              | (k, x) =>
                  match x with
                  | VUndef => []
                  | _ => [(quote k ++ ":" ++ serialize x)%string]
                  end
              end) ps
  = map member (kept ps).
Proof.
  induction ps as [| [k x] ps IH]; [reflexivity |].
  unfold kept in *.
  destruct x; cbn [flat_map filter snd is_defined map app];
    rewrite IH; reflexivity.
Qed.

Lemma images_kept (ps : list (string * value)) :
  flat_map (fun kv =>
              match kv with
              | (k, x) =>
                  match x with
                  | VUndef => []
                  | _ => [(k, json_image x)]
                  end
              end) ps
  = map image_entry (kept ps).
Proof.
  induction ps as [| [k x] ps IH]; [reflexivity |].
  unfold kept in *.
  destruct x; cbn [flat_map filter snd is_defined map app];
    rewrite IH; reflexivity.
Qed.

Lemma member_text (kv : string * value) (rest : string) :
  (member kv ++ rest)%string
  = String dquote
      (escape (fst kv) ++ String dquote (String ":" (serialize (snd kv) ++ rest)))%string.
Proof.
  unfold member, quote. rewrite append_assoc. simpl.
  rewrite append_assoc. reflexivity.
Qed.

Lemma member_length (kv : string * value) :
  String.length (member kv)
  = String.length (escape (fst kv)) + 3 + String.length (serialize (snd kv)).
Proof.
  unfold member, quote. simpl. rewrite !length_append. simpl. lia.
Qed.

Lemma parse_members_spec (l : list (string * value)) :
  Forall (fun kv => reads_back (snd kv)) l ->
  forall (kv : string * value) (acc : list (string * value)) (fuel : nat)
         (rest : string),
    reads_back (snd kv) ->
    2 * String.length (String.concat "," (map member (kv :: l))) + 1 <= fuel ->
    parse_members fuel
      (String.concat "," (map member (kv :: l)) ++ String "}" rest)%string acc
    = Normal (VObj (fold_left (fun a e => define_property (fst e) (snd e) a)
                      (map image_entry (kv :: l)) acc), rest).
Proof.
  induction 1 as [| kv' l Hy Hl IH]; intros kv acc fuel rest Hx Hfuel.
  - simpl map in *. rewrite concat_single in *.
    destruct fuel as [| f]; [lia |].
    assert (Hlen : 2 * String.length (serialize (snd kv)) <= f).
    { pose proof (member_length kv). lia. }
    rewrite parse_members_S, member_text.
    parse_step. rewrite string_body_escape. parse_step.
    rewrite Hx by (reflexivity || lia).
    reflexivity.
  - simpl map in *. rewrite concat_cons2 in *.
    rewrite length_sep in Hfuel.
    destruct fuel as [| f]; [lia |].
    assert (Hlen : 2 * String.length (serialize (snd kv)) <= f).
    { pose proof (member_length kv). lia. }
    rewrite parse_members_S, append_assoc, member_text.
    parse_step. rewrite string_body_escape. parse_step.
    simpl append at 2.
    rewrite Hx by (reflexivity || lia).
    parse_step.
    rewrite (IH kv' _ f rest Hy) by (simpl map; lia).
    reflexivity.
Qed.

Lemma kept_reads_back (ps : list (string * value)) :
  Forall (fun kv => reads_back (snd kv)) ps ->
  Forall (fun kv => reads_back (snd kv)) (kept ps).
Proof.
  intro H. unfold kept. apply Forall_forall. intros kv Hin.
  apply filter_In in Hin. destruct Hin as [Hin _].
  rewrite Forall_forall in H. apply H. exact Hin.
Qed.

Lemma bracket_text (o c : ascii) (body rest : string) :
  ((String o EmptyString ++ body ++ String c EmptyString) ++ rest)%string
  = String o (body ++ String c rest)%string.
Proof. simpl. rewrite append_assoc. reflexivity. Qed.

Lemma bracket_length (o c : ascii) (body : string) :
  String.length (String o EmptyString ++ body ++ String c EmptyString)%string
  = String.length body + 2.
Proof. simpl. rewrite length_append. simpl. lia. Qed.

Lemma parse_value_array (f : nat) (t : string) :
  parse_value (S f) (String "[" t) =
  match expect "]" (skip_ws t) with
  | Some t' => Normal (VArr [], t')
  | None => parse_elements f t []
  end.
Proof. reflexivity. Qed.

Lemma parse_value_object (f : nat) (t : string) :
  parse_value (S f) (String "{" t) =
  match expect "}" (skip_ws t) with
  | Some t' => Normal (VObj [], t')
  | None => parse_members f t []
  end.
Proof. reflexivity. Qed.

Lemma parse_value_string (f : nat) (t : string) :
  parse_value (S f) (String dquote t) =
  (x <- string_body t ;; Normal (VStr (fst x), snd x)).
Proof. reflexivity. Qed.

Theorem parse_serialize (v : value) : reads_back v.
Proof.
  induction v as [| | b | n | s | l IH | ps IH] using value_ind;
    intros fuel rest Hstop Hfuel.
  - destruct fuel as [| f]; [simpl in Hfuel; lia | reflexivity].
  - destruct fuel as [| f]; [simpl in Hfuel; lia | reflexivity].
  - destruct fuel as [| f]; [destruct b; simpl in Hfuel; lia |].
    destruct b; reflexivity.
  - destruct fuel as [| f]; [pose proof (serialize_length (VNum n)); lia |].
    simpl serialize.
    destruct (number_to_string_head n rest) as (c & t & Heq & Hc).
    rewrite parse_value_S, Heq. simpl skip_ws.
    rewrite (number_head_not_ws c Hc), Hc, <- Heq.
    apply parse_number_spec. exact Hstop.
  - destruct fuel as [| f]; [pose proof (serialize_length (VStr s)); lia |].
    simpl serialize. unfold quote. simpl append.
    rewrite append_assoc. simpl append.
    rewrite parse_value_string, string_body_escape. reflexivity.
  - destruct fuel as [| f]; [pose proof (serialize_length (VArr l)); lia |].
    destruct l as [| x l]; [reflexivity |].
    change (serialize (VArr (x :: l)))
      with ("[" ++ String.concat "," (map serialize (x :: l)) ++ "]")%string in *.
    rewrite bracket_length in Hfuel. rewrite bracket_text.
    rewrite parse_value_array.
    inversion IH as [| x' l' Hx Hl]; subst.
    assert (Hnone : expect "]"
              (skip_ws (String.concat "," (map serialize (x :: l))
                        ++ String "]" rest)%string) = None).
    { destruct l as [| y l].
      - simpl map. rewrite concat_single. apply expect_close_value.
      - simpl map. rewrite concat_cons2, append_assoc.
        apply expect_close_value. }
    rewrite Hnone.
    rewrite (parse_elements_spec l Hl x [] f rest Hx) by lia.
    reflexivity.
  - destruct fuel as [| f]; [pose proof (serialize_length (VObj ps)); lia |].
    assert (Htext : serialize (VObj ps)
                    = ("{" ++ String.concat "," (map member (kept ps)) ++ "}")%string).
    { simpl. rewrite members_kept. reflexivity. }
    rewrite Htext in *. clear Htext.
    simpl json_image. rewrite images_kept.
    apply kept_reads_back in IH.
    destruct (kept ps) as [| kv l]; [reflexivity |].
    rewrite bracket_length in Hfuel. rewrite bracket_text.
    rewrite parse_value_object.
    inversion IH as [| x' l' Hx Hl]; subst.
    assert (Hnone : expect "}"
              (skip_ws (String.concat "," (map member (kv :: l))
                        ++ String "}" rest)%string) = None).
    { destruct l as [| y l].
      - simpl map. rewrite concat_single, member_text. reflexivity.
      - simpl map. rewrite concat_cons2, append_assoc, member_text.
        reflexivity. }
    rewrite Hnone.
    rewrite (parse_members_spec l Hl kv [] f rest Hx) by lia.
    reflexivity.
Qed.

(** [JSON.parse(JSON.stringify(v))] returns, and returns the image of [v]. *)
Theorem JSON_parse_stringify (v : value) :
  v <> VUndef ->
  JSON_parse (JSON_stringify v) = Normal (json_image v).
Proof.
  intro Hv.
  assert (Hs : JSON_stringify v = VStr (serialize v)).
  { destruct v; try reflexivity. contradiction. }
  rewrite Hs. unfold JSON_parse. simpl to_string.
  pose proof (parse_serialize v (2 * String.length (serialize v) + 2)
                EmptyString eq_refl) as H.
  rewrite append_empty in H. rewrite H by lia. reflexivity.
Qed.

(** ** The fuel of the parser is enough *)

Lemma skip_ws_length (s : string) : String.length (skip_ws s) <= String.length s.
Proof.
  induction s as [| c t IH]; simpl; [lia |].
  destruct (is_ws c); simpl; lia.
Qed.

Lemma expect_length (c : ascii) (s t : string) :
  expect c s = Some t -> String.length s = S (String.length t).
Proof.
  destruct s as [| a s]; simpl; [discriminate |].
  destruct (a =? c)%char; [| discriminate]. intro H. injection H as ->. reflexivity.
Qed.

Lemma push_normal (c : ascii) (r : completion (string * string)) (x : string * string) :
  push c r = Normal x -> exists y, r = Normal y /\ snd x = snd y.
Proof.
  destruct r as [y | e |]; simpl; intro H; try discriminate.
  injection H as <-. exists y. split; reflexivity.
Qed.

Lemma string_body_length (n : nat) :
  forall (s : string) (x : string * string),
    String.length s <= n ->
    string_body s = Normal x -> String.length (snd x) < String.length s.
Proof.
  induction n as [| n IH]; intros s x Hn H.
  - destruct s; [discriminate | simpl in Hn; lia].
  - destruct s as [| c t]; [discriminate |].
    simpl in Hn. simpl in H.
    destruct (c =? dquote)%char.
    { injection H as <-. simpl. lia. }
    destruct (c =? backslash)%char.
    + destruct t as [| e t1]; [discriminate |].
      simpl in Hn.
      destruct (unescape e).
      * apply push_normal in H. destruct H as (y & Hy & ->).
        apply IH in Hy; [simpl; lia | lia].
      * destruct (e =? "u")%char; [| discriminate].
        destruct t1 as [| h1 [| h2 [| h3 [| h4 t2]]]]; try discriminate.
        destruct (hex4 h1 h2 h3 h4); [| discriminate].
        destruct (_ <? 256)%N; [| discriminate].
        apply push_normal in H. destruct H as (y & Hy & ->).
        simpl in Hn. apply IH in Hy; [simpl; lia | lia].
    + destruct (_ <? 32)%N; [discriminate |].
      apply push_normal in H. destruct H as (y & Hy & ->).
      apply IH in Hy; [simpl; lia | lia].
Qed.

Lemma strip_prefix_length (p s rest : string) :
  strip_prefix p s = Some rest -> String.length rest <= String.length s.
Proof.
  revert s. induction p as [| a p IH]; intros s H; simpl in H.
  - injection H as ->. lia.
  - destruct s as [| b s]; [discriminate |].
    destruct (a =? b)%char; [| discriminate].
    apply IH in H. simpl. lia.
Qed.

Lemma literal_length (word : string) (v w : value) (s rest : string) :
  literal word v s = Normal (w, rest) -> String.length rest <= String.length s.
Proof.
  unfold literal. destruct (strip_prefix word s) eqn:E; [| discriminate].
  intro H. injection H as _ <-. eapply strip_prefix_length, E.
Qed.

Lemma read_digits_length (s : string) (acc : N) :
  String.length (snd (read_digits s acc)) <= String.length s.
Proof.
  revert acc. induction s as [| c t IH]; intro acc; simpl; [lia |].
  destruct (is_digit c); simpl; [specialize (IH (acc * 10 + digit_val c)%N) |]; lia.
Qed.

Lemma unsigned_length (s : string) (r : N * string) :
  match s with
  | EmptyString => False
  | String c _ => is_digit c = true
  end ->
  unsigned s = Normal r -> String.length (snd r) < String.length s.
Proof.
  destruct s as [| c t]; [contradiction |]. intro Hc. unfold unsigned.
  set (r0 := if (c =? "0")%char then (0%N, t) else read_digits (String c t) 0).
  assert (Hr0 : String.length (snd r0) < String.length (String c t)).
  { subst r0. destruct (c =? "0")%char; [simpl; lia |].
    simpl read_digits. rewrite Hc.
    match goal with
    | |- context [read_digits t ?a] => pose proof (read_digits_length t a)
    end.
    simpl String.length. lia. }
  destruct (snd r0) eqn:E.
  - intro H. injection H as <-. rewrite E in *. exact Hr0.
  - destruct (_ || _ || _); [discriminate |].
    intro H. injection H as <-. rewrite E in *. exact Hr0.
Qed.

Lemma parse_number_length (s : string) (v : value) (rest : string) :
  match s with
  | EmptyString => False
  | String c _ => (is_digit c || (c =? "-")%char) = true
  end ->
  parse_number s = Normal (v, rest) -> String.length rest < String.length s.
Proof.
  destruct s as [| c t]; [contradiction |]. intro Hc. unfold parse_number.
  destruct (c =? "-")%char.
  - destruct t as [| d t']; [discriminate |].
    destruct (is_digit d) eqn:Hd; [| discriminate].
    destruct (unsigned (String d t')) as [r | |] eqn:E; simpl; try discriminate.
    intro H. injection H as _ <-.
    apply unsigned_length in E; [simpl in *; lia | exact Hd].
  - rewrite orb_false_r in Hc.
    destruct (unsigned (String c t)) as [r | |] eqn:E; simpl; try discriminate.
    intro H. injection H as _ <-.
    apply unsigned_length in E; [exact E | exact Hc].
Qed.

(** Every parser leaves less text than it was given. *)
Lemma parse_length (f : nat) :
  (forall s v rest,
      parse_value f s = Normal (v, rest) -> String.length rest < String.length s)
  /\ (forall s acc v rest,
         parse_elements f s acc = Normal (v, rest) ->
         String.length rest < String.length s)
  /\ (forall s acc v rest,
         parse_members f s acc = Normal (v, rest) ->
         String.length rest < String.length s).
Proof.
  induction f as [| f (IHv & IHe & IHm)].
  { repeat split; intros; discriminate. }
  split; [| split].
  - intros s v rest. rewrite parse_value_S.
    pose proof (skip_ws_length s) as Hws.
    destruct (skip_ws s) as [| c t] eqn:Es; [discriminate |]. simpl in Hws.
    destruct (is_digit c || (c =? "-")%char) eqn:Hnum.
    { intro Hp. apply parse_number_length in Hp; [simpl in Hp; lia | exact Hnum]. }
    destruct (c =? dquote)%char.
    { destruct (string_body t) as [x | |] eqn:E; simpl; try discriminate.
      intro Hp. injection Hp as _ <-.
      apply (string_body_length _ _ _ (le_n _)) in E. lia. }
    destruct (c =? "{")%char.
    { pose proof (skip_ws_length t).
      destruct (expect "}" (skip_ws t)) as [t' |] eqn:E.
      - intro Hp. injection Hp as _ <-. apply expect_length in E. lia.
      - intro Hp. apply IHm in Hp. lia. }
    destruct (c =? "[")%char.
    { pose proof (skip_ws_length t).
      destruct (expect "]" (skip_ws t)) as [t' |] eqn:E.
      - intro Hp. injection Hp as _ <-. apply expect_length in E. lia.
      - intro Hp. apply IHe in Hp. lia. }
    destruct (c =? "t")%char; [intro Hp; apply literal_length in Hp; lia |].
    destruct (c =? "f")%char; [intro Hp; apply literal_length in Hp; lia |].
    destruct (c =? "n")%char; [intro Hp; apply literal_length in Hp; lia |].
    discriminate.
  - intros s acc v rest. rewrite parse_elements_S.
    destruct (parse_value f s) as [[w r] | |] eqn:E; simpl; try discriminate.
    apply IHv in E. pose proof (skip_ws_length r).
    destruct (expect "," (skip_ws r)) as [t |] eqn:E1.
    + apply expect_length in E1. intro Hp. apply IHe in Hp. lia.
    + destruct (expect "]" (skip_ws r)) as [t |] eqn:E2; [| discriminate].
      apply expect_length in E2. intro Hp. injection Hp as _ <-. lia.
  - intros s acc v rest. rewrite parse_members_S.
    pose proof (skip_ws_length s).
    destruct (expect dquote (skip_ws s)) as [t |] eqn:E0; [| discriminate].
    apply expect_length in E0.
    destruct (string_body t) as [k | |] eqn:Ek; simpl; try discriminate.
    apply (string_body_length _ _ _ (le_n _)) in Ek.
    pose proof (skip_ws_length (snd k)).
    destruct (expect ":" (skip_ws (snd k))) as [t1 |] eqn:E1; [| discriminate].
    apply expect_length in E1.
    destruct (parse_value f t1) as [[w r] | |] eqn:E; simpl; try discriminate.
    apply IHv in E. pose proof (skip_ws_length r).
    destruct (expect "," (skip_ws r)) as [t2 |] eqn:E2.
    + apply expect_length in E2. intro Hp. apply IHm in Hp. lia.
    + destruct (expect "}" (skip_ws r)) as [t2 |] eqn:E3; [| discriminate].
      apply expect_length in E3. intro Hp. injection Hp as _ <-. lia.
Qed.

(** With fuel for twice the text, one more unit of fuel changes nothing. *)
Lemma parse_fuel_step (f : nat) :
  (forall s, 2 * String.length s + 2 <= f ->
             parse_value f s = parse_value (S f) s)
  /\ (forall s acc, 2 * String.length s + 3 <= f ->
                    parse_elements f s acc = parse_elements (S f) s acc)
  /\ (forall s acc, 2 * String.length s + 3 <= f ->
                    parse_members f s acc = parse_members (S f) s acc).
Proof.
  induction f as [| f (IHv & IHe & IHm)].
  { repeat split; intros; lia. }
  destruct (parse_length f) as (Lv & _ & _).
  split; [| split].
  - intros s Hf. rewrite (parse_value_S f), (parse_value_S (S f)).
    pose proof (skip_ws_length s) as Hws.
    destruct (skip_ws s) as [| c t]; [reflexivity |]. simpl in Hws.
    destruct (is_digit c || (c =? "-")%char); [reflexivity |].
    destruct (c =? dquote)%char; [reflexivity |].
    destruct (c =? "{")%char.
    { destruct (expect "}" (skip_ws t)); [reflexivity | apply IHm; lia]. }
    destruct (c =? "[")%char.
    { destruct (expect "]" (skip_ws t)); [reflexivity | apply IHe; lia]. }
    reflexivity.
  - intros s acc Hf. rewrite (parse_elements_S f), (parse_elements_S (S f)).
    rewrite <- (IHv s) by lia.
    destruct (parse_value f s) as [[w r] | |] eqn:E; unfold bind; cbv beta iota zeta; cbn [fst snd];
      try reflexivity.
    apply Lv in E. pose proof (skip_ws_length r).
    destruct (expect "," (skip_ws r)) as [t |] eqn:E1; [| reflexivity].
    apply expect_length in E1. apply IHe. lia.
  - intros s acc Hf. rewrite (parse_members_S f), (parse_members_S (S f)).
    pose proof (skip_ws_length s).
    destruct (expect dquote (skip_ws s)) as [t |] eqn:E0; [| reflexivity].
    apply expect_length in E0.
    destruct (string_body t) as [k | |] eqn:Ek; unfold bind; cbv beta iota zeta; cbn [fst snd];
      try reflexivity.
    apply (string_body_length _ _ _ (le_n _)) in Ek.
    pose proof (skip_ws_length (snd k)).
    destruct (expect ":" (skip_ws (snd k))) as [t1 |] eqn:E1; [| reflexivity].
    apply expect_length in E1.
    rewrite <- (IHv t1) by lia.
    destruct (parse_value f t1) as [[w r] | |] eqn:E; unfold bind; cbv beta iota zeta; cbn [fst snd];
      try reflexivity.
    apply Lv in E. pose proof (skip_ws_length r).
    destruct (expect "," (skip_ws r)) as [t2 |] eqn:E2; [| reflexivity].
    apply expect_length in E2. apply IHm. lia.
Qed.

(** The answer of [JSON.parse] does not depend on the fuel: any larger
    amount gives the same. *)
Theorem parse_fuel_enough (s : string) (fuel : nat) :
  2 * String.length s + 2 <= fuel ->
  parse_value fuel s = parse_value (2 * String.length s + 2) s.
Proof.
  induction 1 as [| f Hle IH]; [reflexivity |].
  rewrite <- IH. symmetry. apply (parse_fuel_step f). exact Hle.
Qed.

(** ** Objects: reading a property after a definition *)

Lemma own_app (k : string) (ps qs : list (string * value)) :
  own k (ps ++ qs) = match own k ps with Some v => Some v | None => own k qs end.
Proof.
  induction ps as [| [k' v'] ps IH]; simpl; [reflexivity |].
  destruct (k' =? k); [reflexivity | exact IH].
Qed.

Lemma own_replace_same (k : string) (v : value) (ps : list (string * value)) :
  own k ps <> None -> own k (replace_own k v ps) = Some v.
Proof.
  induction ps as [| [k' v'] ps IH]; simpl; intro H; [contradiction |].
  destruct (k' =? k) eqn:E; simpl; rewrite E; [reflexivity | exact (IH H)].
Qed.

Lemma own_replace_other (k k' : string) (v : value) (ps : list (string * value)) :
  k' <> k -> own k' (replace_own k v ps) = own k' ps.
Proof.
  intro Hne. induction ps as [| [k0 v0] ps IH]; simpl; [reflexivity |].
  destruct (k0 =? k) eqn:E; simpl.
  - apply String.eqb_eq in E. subst k0.
    destruct (k =? k') eqn:E'; [| reflexivity].
    apply String.eqb_eq in E'. congruence.
  - rewrite IH. reflexivity.
Qed.

Lemma own_insert_same (i : N) (k : string) (v : value) (ps : list (string * value)) :
  own k ps = None -> own k (insert_index i k v ps) = Some v.
Proof.
  induction ps as [| [k' v'] ps IH]; simpl; intro H.
  - rewrite String.eqb_refl. reflexivity.
  - destruct (k' =? k) eqn:E; [discriminate |].
    destruct (array_index k') as [j |]; [destruct (j <? i)%N |]; simpl;
      rewrite ?E, ?String.eqb_refl; auto.
Qed.

Lemma own_insert_other (i : N) (k k' : string) (v : value)
  (ps : list (string * value)) :
  k' <> k -> own k' (insert_index i k v ps) = own k' ps.
Proof.
  intro Hne.
  assert (E : (k =? k') = false) by (apply String.eqb_neq; congruence).
  induction ps as [| [k0 v0] ps IH]; simpl.
  - rewrite E. reflexivity.
  - destruct (array_index k0) as [j |]; [destruct (j <? i)%N |]; simpl;
      rewrite ?E, ?IH; reflexivity.
Qed.

Lemma own_define_same (k : string) (v : value) (ps : list (string * value)) :
  own k (define_property k v ps) = Some v.
Proof.
  unfold define_property. destruct (own k ps) eqn:E.
  - apply own_replace_same. congruence.
  - destruct (array_index k).
    + apply own_insert_same. exact E.
    + rewrite own_app, E. simpl. rewrite String.eqb_refl. reflexivity.
Qed.

Lemma own_define_other (k k' : string) (v : value) (ps : list (string * value)) :
  k' <> k -> own k' (define_property k v ps) = own k' ps.
Proof.
  intro Hne. unfold define_property. destruct (own k ps).
  - apply own_replace_other. exact Hne.
  - destruct (array_index k).
    + apply own_insert_other. exact Hne.
    + rewrite own_app. simpl.
      destruct (k =? k') eqn:E.
      * apply String.eqb_eq in E. congruence.
      * destruct (own k' ps); reflexivity.
Qed.

(** Defining a list of properties in turn: for each key the last one wins,
    and keys that are not mentioned keep their value. *)
Lemma own_define_all (k : string) (entries acc : list (string * value)) :
  own k (fold_left (fun a e => define_property (fst e) (snd e) a) entries acc)
  = match own k (rev entries) with
    | Some v => Some v
    | None => own k acc
    end.
Proof.
  revert acc. induction entries as [| [k' v'] entries IH]; intro acc; simpl.
  - reflexivity.
  - rewrite IH, own_app. destruct (own k (rev entries)); [reflexivity |].
    simpl. destruct (k' =? k) eqn:E.
    + apply String.eqb_eq in E. subst. apply own_define_same.
    + apply own_define_other. apply String.eqb_neq in E. congruence.
Qed.

Lemma own_none_not_in (k : string) (ps : list (string * value)) :
  ~ In k (map fst ps) -> own k ps = None.
Proof.
  induction ps as [| [k' v'] ps IH]; simpl; intro H; [reflexivity |].
  destruct (k' =? k) eqn:E.
  - apply String.eqb_eq in E. tauto.
  - apply IH. tauto.
Qed.

Lemma own_rev (k : string) (ps : list (string * value)) :
  NoDup (map fst ps) -> own k (rev ps) = own k ps.
Proof.
  induction ps as [| [k' v'] ps IH]; simpl; intro H; [reflexivity |].
  inversion H as [| ? ? Hnin Hnd]; subst.
  rewrite own_app, (IH Hnd). simpl.
  destruct (k' =? k) eqn:E.
  - apply String.eqb_eq in E. subst. rewrite (own_none_not_in k ps Hnin).
    reflexivity.
  - destruct (own k ps); reflexivity.
Qed.

Lemma kept_keys_nodup (ps : list (string * value)) :
  NoDup (map fst ps) -> NoDup (map fst (map image_entry (kept ps))).
Proof.
  rewrite map_map. simpl.
  induction ps as [| [k v] ps IH]; simpl; intro H; [constructor |].
  inversion H as [| ? ? Hnin Hnd]; subst.
  destruct (is_defined v); simpl; [constructor |]; auto.
  intro Hin. apply Hnin. apply in_map_iff in Hin.
  destruct Hin as ([k' v'] & Hk & Hin). simpl in Hk. subst.
  apply filter_In in Hin. destruct Hin as [Hin _].
  apply in_map_iff. exists (k, v'). auto.
Qed.

Lemma own_images (k : string) (ps : list (string * value)) :
  NoDup (map fst ps) ->
  own k (map image_entry (kept ps))
  = match own k ps with
    | Some VUndef | None => None
    | Some x => Some (json_image x)
    end.
Proof.
  induction ps as [| [k' v'] ps IH]; simpl; intro H; [reflexivity |].
  inversion H as [| ? ? Hnin Hnd]; subst.
  destruct (k' =? k) eqn:E.
  - apply String.eqb_eq in E. subst k'.
    destruct v'; simpl; rewrite ?String.eqb_refl; try reflexivity.
    rewrite (IH Hnd), (own_none_not_in k ps Hnin). reflexivity.
  - destruct (is_defined v'); simpl; rewrite ?E; exact (IH Hnd).
Qed.

(** Reading a property of an object that went through JSON. *)
Lemma field_json_image (k : string) (ps : list (string * value)) :
  NoDup (map fst ps) ->
  json_image (VObj ps) # k
  = match own k ps with
    | Some VUndef | None => VUndef
    | Some x => json_image x
    end.
Proof.
  intro H. simpl json_image. rewrite images_kept. unfold field.
  rewrite own_define_all, (own_rev k _ (kept_keys_nodup ps H)), (own_images k ps H).
  simpl. destruct (own k ps) as [[] |]; reflexivity.
Qed.

Lemma json_image_primitive (v : value) :
  primitive v = true -> v <> VUndef -> json_image v = v.
Proof.
  destruct v; simpl; intros H Hv; try reflexivity; try discriminate.
  contradiction.
Qed.

(** ** Lists in the completion monad *)

Lemma mapM_normal {A B : Type} (f : A -> completion B) (g : A -> B) (l : list A) :
  Forall (fun a => f a = Normal (g a)) l -> mapM f l = Normal (map g l).
Proof.
  induction 1 as [| a l Ha Hl IH]; simpl; [reflexivity |].
  rewrite Ha, IH. reflexivity.
Qed.

Lemma filterM_normal {A : Type} (f : A -> completion bool) (p : A -> bool)
  (l : list A) :
  Forall (fun a => f a = Normal (p a)) l -> filterM f l = Normal (filter p l).
Proof.
  induction 1 as [| a l Ha Hl IH]; simpl; [reflexivity |].
  rewrite Ha, IH. reflexivity.
Qed.

Lemma mapi_from_length {A B : Type} (g : A -> nat -> B) (l : list A) (i : nat) :
  length (mapi_from i g l) = length l.
Proof.
  revert i. induction l as [| a l IH]; intro i; simpl; [| rewrite IH]; reflexivity.
Qed.

Lemma mapi_from_nth {A B : Type} (g : A -> nat -> B) (l : list A) (i j : nat) :
  nth_error (mapi_from i g l) j
  = option_map (fun a => g a (i + j)) (nth_error l j).
Proof.
  revert i j. induction l as [| a l IH]; intros i j; destruct j; simpl;
    try reflexivity.
  - rewrite Nat.add_0_r. reflexivity.
  - rewrite IH. simpl. rewrite Nat.add_succ_r. reflexivity.
Qed.

(** ** The callbacks on values that can be read *)

Lemma get_normal (v : value) (k : string) :
  nullish v = false -> get v k = Normal (v # k).
Proof. intro H. unfold get. rewrite H. reflexivity. Qed.

Lemma is_url_button_normal (b : value) :
  nullish b = false -> is_url_button b = Normal (url_like b).
Proof.
  intro H. unfold is_url_button, url_like.
  rewrite (get_normal b "type" H). simpl bind.
  destruct (strict_eq_str (b # "type") "webview"); [reflexivity |].
  rewrite (get_normal b "name" H). reflexivity.
Qed.

Lemma or_else_get (a v : value) (k : string) :
  nullish v = false -> or_else a (get v k) = Normal (or_value a (v # k)).
Proof.
  intro H. unfold or_else, or_value. rewrite (get_normal v k H).
  destruct (truthy a); reflexivity.
Qed.

Lemma or_else_value (a b : value) :
  or_else a (Normal b) = Normal (or_value a b).
Proof. unfold or_else, or_value. destruct (truthy a); reflexivity. Qed.

Lemma buttonParams_normal (b : value) :
  nullish b = false -> buttonParams b = Normal (params_of b).
Proof.
  intro H. unfold buttonParams, params_of.
  repeat (rewrite ?(get_normal b _ H), ?(or_else_get _ b _ H), ?or_else_value;
          simpl bind).
  destruct (is_defined (b # "paymentLinkPreview"));
    destruct (is_defined (b # "webviewInteraction"));
    rewrite ?(get_normal b _ H); reflexivity.
Qed.

Lemma processButton_normal (b : value) :
  nullish b = false -> processButton b = Normal (process b).
Proof.
  intro H. unfold processButton, process.
  rewrite (is_url_button_normal b H). simpl bind.
  destruct (url_like b); [| reflexivity].
  rewrite (buttonParams_normal b H). reflexivity.
Qed.

Lemma process_not_nullish (b : value) :
  nullish b = false -> nullish (process b) = false.
Proof. intro H. unfold process. destruct (url_like b); [reflexivity | exact H]. Qed.

Lemma url_like_not_nullish (b : value) : url_like b = true -> nullish b = false.
Proof. destruct b; simpl; intro H; reflexivity || discriminate H. Qed.

(** After the [map], the buttons named [cta_url] are the rebuilt ones. *)
Lemma process_name (b : value) :
  strict_eq_str (process b # "name") "cta_url" = url_like b.
Proof.
  unfold process. destruct (url_like b) eqn:E; [reflexivity |].
  unfold url_like in E. apply orb_false_elim in E. tauto.
Qed.

Lemma processedButtons_normal (bs : list value) :
  Forall (fun b => nullish b = false) bs ->
  processedButtons (VArr bs) = Normal (map process bs).
Proof.
  intro H. simpl. apply mapM_normal.
  eapply Forall_impl; [| exact H]. apply processButton_normal.
Qed.

Lemma filter_map_process (bs : list value) :
  filter (fun p => strict_eq_str (p # "name") "cta_url") (map process bs)
  = map normalized (filter url_like bs).
Proof.
  induction bs as [| b bs IH]; simpl; [reflexivity |].
  rewrite process_name, IH. unfold process.
  destruct (url_like b); reflexivity.
Qed.

Lemma urlButtons_normal (bs : list value) :
  Forall (fun b => nullish b = false) bs ->
  urlButtons (map process bs) = Normal (map normalized (filter url_like bs)).
Proof.
  intro H. unfold urlButtons. rewrite <- filter_map_process.
  apply filterM_normal. apply Forall_map.
  eapply Forall_impl; [| exact H].
  intros b Hb. unfold named_cta_url.
  rewrite (get_normal _ "name" (process_not_nullish b Hb)). reflexivity.
Qed.

Lemma params_keys_nodup (b : value) :
  match params_of b with
  | VObj ps => NoDup (map fst ps)
  | _ => False
  end.
Proof.
  simpl. repeat constructor; simpl; intuition discriminate.
Qed.

Lemma JSON_parse_normalized (b : value) :
  JSON_parse (normalized b # "buttonParamsJson") = Normal (parsed_params b).
Proof.
  change (normalized b # "buttonParamsJson") with (JSON_stringify (params_of b)).
  apply JSON_parse_stringify. discriminate.
Qed.

Lemma parsed_params_object (b : value) : nullish (parsed_params b) = false.
Proof. reflexivity. Qed.

Lemma canonical_of_normal (params : value) :
  nullish params = false ->
  canonical_of params
  = Normal (or_value (or_value (params # "url") (params # "landing_page_url"))
                     (VStr EmptyString)).
Proof.
  intro H. unfold canonical_of.
  rewrite (get_normal params "url" H). simpl bind.
  rewrite (or_else_get _ params _ H). simpl bind.
  apply or_else_value.
Qed.

Lemma landing_of_normal (params : value) :
  nullish params = false ->
  landing_of params
  = Normal (or_value (or_value (params # "landing_page_url") (params # "url"))
                     (VStr EmptyString)).
Proof.
  intro H. unfold landing_of.
  rewrite (get_normal params "landing_page_url" H). simpl bind.
  rewrite (or_else_get _ params _ H). simpl bind.
  apply or_else_value.
Qed.

(** On a rebuilt button the [try] block runs to its end. *)
Lemma try_block_normalized (b : value) (st : locals) :
  try_block (normalized b) st
  = ({| canonicalUrl :=
          or_value (or_value (parsed_params b # "url")
                             (parsed_params b # "landing_page_url"))
                   (VStr EmptyString);
        landingPageUrl :=
          or_value (or_value (parsed_params b # "landing_page_url")
                             (parsed_params b # "url"))
                   (VStr EmptyString) |},
     Normal tt).
Proof.
  unfold try_block.
  rewrite (get_normal (normalized b) "buttonParamsJson" eq_refl).
  cbv beta iota delta [bind].
  rewrite JSON_parse_normalized.
  rewrite (canonical_of_normal _ (parsed_params_object b)).
  rewrite (landing_of_normal _ (parsed_params_object b)).
  reflexivity.
Qed.

Lemma tapTarget_normalized (b : value) (index : nat) :
  tapTarget (normalized b) index = Normal (target_of (parsed_params b) index).
Proof.
  unfold tapTarget. rewrite try_block_normalized. reflexivity.
Qed.

Lemma tapTargetList_normal (bs : list value) :
  tapTargetList (map normalized bs)
  = Normal (mapi_from 0 (fun b i => target_of (parsed_params b) i) bs).
Proof.
  unfold tapTargetList, mapiM.
  assert (H : forall i,
             mapiM_from i tapTarget (map normalized bs)
             = Normal (mapi_from i (fun b j => target_of (parsed_params b) j) bs)).
  { induction bs as [| b bs IH]; intro i; simpl; [reflexivity |].
    rewrite tapTarget_normalized, IH. reflexivity. }
  apply H.
Qed.

Lemma accepted_buttons (options : value) :
  accepted options = true ->
  nullish options = false
  /\ default_to (VArr []) (options # "buttons") = VArr (buttons_of options)
  /\ Forall (fun b => nullish b = false) (buttons_of options).
Proof.
  unfold accepted, buttons_of. intro H.
  apply andb_prop in H. destruct H as [H1 H2].
  split; [now apply negb_true_iff in H1 |].
  destruct (default_to (VArr []) (options # "buttons")); try discriminate.
  split; [reflexivity |].
  apply Forall_forall. intros b Hb.
  rewrite forallb_forall in H2. apply negb_true_iff. auto.
Qed.

(** The whole run on an accepted input. *)
Lemma createIOSWebviewMessage_accepted (options : value) :
  accepted options = true ->
  createIOSWebviewMessage options
  = Normal (VObj [("interactiveMessage",
                   VObj (interactiveMessage
                           (options # "bodyText") (options # "footerText")
                           (options # "title") (options # "subtitle")
                           (options # "imageMessage")
                           (default_to (VObj []) (options # "contextInfo"))
                           (map process (buttons_of options))
                           (JSON_stringify
                              (messageParams (targets_of (buttons_of options))))))]).
Proof.
  intro H. destruct (accepted_buttons options H) as (Hopt & Hbs & Hall).
  unfold createIOSWebviewMessage.
  rewrite !(get_normal options _ Hopt). simpl bind. cbv zeta.
  rewrite Hbs, (processedButtons_normal _ Hall). simpl bind.
  rewrite (urlButtons_normal _ Hall). simpl bind.
  rewrite tapTargetList_normal. reflexivity.
Qed.

(** ** The assembled message *)

Section Assembled.
Variables bodyText footerText title subtitle imageMessage contextInfo : value.
Variable processed : list value.
Variable messageParamsJson : value.

Let message : value :=
  VObj (interactiveMessage bodyText footerText title subtitle imageMessage
          contextInfo processed messageParamsJson).

Lemma message_nativeFlowMessage :
  message # "nativeFlowMessage"
  = VObj [("buttons", VArr processed); ("messageParamsJson", messageParamsJson)].
Proof.
  unfold message, interactiveMessage.
  destruct (truthy imageMessage || truthy title || truthy subtitle);
    destruct (truthy footerText); reflexivity.
Qed.

Lemma message_body : message # "body" = VObj [("text", bodyText)].
Proof.
  unfold message, interactiveMessage.
  destruct (truthy imageMessage || truthy title || truthy subtitle);
    destruct (truthy footerText); reflexivity.
Qed.

Lemma message_contextInfo :
  message # "contextInfo"
  = VObj (spread_into
            [("dataSharingContext", VObj [("showMmDisclosure", VBool false)])]
            contextInfo).
Proof.
  unfold message, interactiveMessage.
  destruct (truthy imageMessage || truthy title || truthy subtitle);
    destruct (truthy footerText); reflexivity.
Qed.

Lemma message_header_key :
  has_key message "header"
  = truthy imageMessage || truthy title || truthy subtitle.
Proof.
  unfold message, interactiveMessage.
  destruct (truthy imageMessage || truthy title || truthy subtitle);
    destruct (truthy footerText); reflexivity.
Qed.

Lemma message_header :
  truthy imageMessage || truthy title || truthy subtitle = true ->
  message # "header" = VObj (header imageMessage title subtitle).
Proof.
  unfold message, interactiveMessage. intros ->.
  destruct (truthy footerText); reflexivity.
Qed.

Lemma message_footer_key : has_key message "footer" = truthy footerText.
Proof.
  unfold message, interactiveMessage.
  destruct (truthy imageMessage || truthy title || truthy subtitle);
    destruct (truthy footerText); reflexivity.
Qed.

Lemma message_footer :
  truthy footerText = true ->
  message # "footer" = VObj [("text", footerText)].
Proof.
  unfold message, interactiveMessage. intros ->.
  destruct (truthy imageMessage || truthy title || truthy subtitle);
    reflexivity.
Qed.
End Assembled.

Lemma header_fields (imageMessage title subtitle : value) :
  let h := VObj (header imageMessage title subtitle) in
  h # "hasMediaAttachment" = VBool (truthy imageMessage)
  /\ has_key h "imageMessage" = truthy imageMessage
  /\ has_key h "title" = truthy title
  /\ has_key h "subtitle" = truthy subtitle
  /\ (truthy imageMessage = true -> h # "imageMessage" = imageMessage)
  /\ (truthy title = true -> h # "title" = title)
  /\ (truthy subtitle = true -> h # "subtitle" = subtitle).
Proof.
  unfold header.
  destruct (truthy imageMessage); destruct (truthy title);
    destruct (truthy subtitle); repeat split; intros; reflexivity || discriminate.
Qed.

(** * The claims *)

(** The result on an accepted input, and what its two native-flow fields
    are. *)
Lemma run_accepted (options : value) :
  accepted options = true ->
  exists out,
    createIOSWebviewMessage options = Normal out
    /\ output_buttons out = VArr (map process (buttons_of options))
    /\ output_messageParamsJson out
       = JSON_stringify (messageParams (targets_of (buttons_of options))).
Proof.
  intro H. eexists. split; [apply createIOSWebviewMessage_accepted; exact H |].
  unfold output_buttons, output_messageParamsJson.
  change (VObj [("interactiveMessage", ?m)] # "interactiveMessage") with m.
  rewrite message_nativeFlowMessage. split; reflexivity.
Qed.

(** C1: every button of type "webview" or named "cta_url" is replaced, where
    it stands, by the object with the two properties name = "cta_url" and
    buttonParamsJson = the JSON text of the params object built from the
    button; every other button is returned as it is; the output array has
    the length and the order of the input. *)
Theorem C1_buttons_normalized_in_place (options : value) :
  accepted options = true ->
  exists out processed,
    createIOSWebviewMessage options = Normal out
    /\ output_buttons out = VArr processed
    /\ length processed = length (buttons_of options)
    /\ forall (i : nat) (b : value),
        nth_error (buttons_of options) i = Some b ->
        (url_like b = true ->
         exists params,
           buttonParams b = Normal params
           /\ nth_error processed i
              = Some (VObj [("name", VStr "cta_url");
                            ("buttonParamsJson", VStr (serialize params))]))
        /\ (url_like b = false -> nth_error processed i = Some b).
Proof.
  intro H. destruct (run_accepted options H) as (out & Hout & Hbuttons & _).
  destruct (accepted_buttons options H) as (_ & _ & Hall).
  exists out, (map process (buttons_of options)).
  split; [exact Hout |]. split; [exact Hbuttons |].
  split; [apply length_map |].
  intros i b Hi.
  assert (Hb : nullish b = false).
  { rewrite Forall_forall in Hall. apply Hall. eapply nth_error_In. exact Hi. }
  rewrite nth_error_map, Hi. simpl option_map. unfold process. split; intro E; rewrite E.
  - exists (params_of b). split; [apply buttonParams_normal; exact Hb | reflexivity].
  - reflexivity.
Qed.

Lemma C1_buttons_normalized_in_place_witness :
  accepted C1_options = true
  /\ exists out processed,
      createIOSWebviewMessage C1_options = Normal out
      /\ output_buttons out = VArr processed
      /\ length processed = length (buttons_of C1_options)
      /\ forall (i : nat) (b : value),
          nth_error (buttons_of C1_options) i = Some b ->
          (url_like b = true ->
           exists params,
             buttonParams b = Normal params
             /\ nth_error processed i
                = Some (VObj [("name", VStr "cta_url");
                              ("buttonParamsJson", VStr (serialize params))]))
          /\ (url_like b = false -> nth_error processed i = Some b).
Proof.
  split; [reflexivity | apply (C1_buttons_normalized_in_place C1_options); reflexivity].
Defined.

Lemma parsed_params_field (b : value) (k : string) :
  parsed_params b # k = carried (params_of b # k).
Proof.
  unfold parsed_params, carried.
  pose proof (params_keys_nodup b) as Hnd.
  unfold params_of in *. rewrite (field_json_image k _ Hnd). unfold field.
  destruct (own k _) as [[] |]; reflexivity.
Qed.

Lemma parsed_params_url (b : value) :
  parsed_params b # "url" = carried (b # "url").
Proof. rewrite parsed_params_field. reflexivity. Qed.

Lemma carried_primitive (v : value) : primitive v = true -> carried v = v.
Proof. destruct v; simpl; intro H; reflexivity || discriminate H. Qed.






(** C3: in the params object that is serialized into buttonParamsJson,
    payment_link_preview is the button's paymentLinkPreview whenever that is
    not undefined (an explicit true or false is kept) and false when it is
    undefined; webview_interaction is the button's webviewInteraction
    whenever that is not undefined and true when it is undefined;
    webview_presentation is null unless the button gives a truthy
    webviewPresentation; landing_page_url is the button's url unless the
    button gives a truthy landingPageUrl. *)
Theorem C3_params_defaults (b : value) :
  url_like b = true ->
  exists params,
    buttonParams b = Normal params
    /\ processButton b
       = Normal (VObj [("name", VStr "cta_url");
                       ("buttonParamsJson", JSON_stringify params)])
    /\ (is_defined (b # "paymentLinkPreview") = true ->
        params # "payment_link_preview" = b # "paymentLinkPreview")
    /\ (forall x, b # "paymentLinkPreview" = VBool x ->
                  params # "payment_link_preview" = VBool x)
    /\ (b # "paymentLinkPreview" = VUndef ->
        params # "payment_link_preview" = VBool false)
    /\ (is_defined (b # "webviewInteraction") = true ->
        params # "webview_interaction" = b # "webviewInteraction")
    /\ (forall x, b # "webviewInteraction" = VBool x ->
                  params # "webview_interaction" = VBool x)
    /\ (b # "webviewInteraction" = VUndef ->
        params # "webview_interaction" = VBool true)
    /\ (truthy (b # "webviewPresentation") = false ->
        params # "webview_presentation" = VNull)
    /\ (truthy (b # "webviewPresentation") = true ->
        params # "webview_presentation" = b # "webviewPresentation")
    /\ (truthy (b # "landingPageUrl") = false ->
        params # "landing_page_url" = b # "url")
    /\ (truthy (b # "landingPageUrl") = true ->
        params # "landing_page_url" = b # "landingPageUrl")
    /\ params # "url" = b # "url".
Proof.
  intro H. pose proof (url_like_not_nullish b H) as Hb.
  exists (params_of b).
  split; [apply buttonParams_normal; exact Hb |].
  split; [rewrite (processButton_normal b Hb); unfold process; now rewrite H |].
  unfold params_of, or_value.
  change (VObj ?ps # "payment_link_preview")
    with (if is_defined (b # "paymentLinkPreview")
          then b # "paymentLinkPreview" else VBool false).
  change (VObj ?ps # "webview_interaction")
    with (if is_defined (b # "webviewInteraction")
          then b # "webviewInteraction" else VBool true).
  change (VObj ?ps # "webview_presentation")
    with (if truthy (b # "webviewPresentation")
          then b # "webviewPresentation" else VNull).
  change (VObj ?ps # "landing_page_url")
    with (if truthy (b # "landingPageUrl")
          then b # "landingPageUrl" else b # "url").
  change (VObj ?ps # "url") with (b # "url").
  repeat split; try (intros ->; reflexivity); try (intros x ->; reflexivity).
Qed.

Lemma C3_params_defaults_witness :
  url_like C3_button = true
  /\ exists params,
      buttonParams C3_button = Normal params
      /\ processButton C3_button
         = Normal (VObj [("name", VStr "cta_url");
                         ("buttonParamsJson", JSON_stringify params)])
      /\ (is_defined (C3_button # "paymentLinkPreview") = true ->
          params # "payment_link_preview" = C3_button # "paymentLinkPreview")
      /\ (forall x, C3_button # "paymentLinkPreview" = VBool x ->
                    params # "payment_link_preview" = VBool x)
      /\ (C3_button # "paymentLinkPreview" = VUndef ->
          params # "payment_link_preview" = VBool false)
      /\ (is_defined (C3_button # "webviewInteraction") = true ->
          params # "webview_interaction" = C3_button # "webviewInteraction")
      /\ (forall x, C3_button # "webviewInteraction" = VBool x ->
                    params # "webview_interaction" = VBool x)
      /\ (C3_button # "webviewInteraction" = VUndef ->
          params # "webview_interaction" = VBool true)
      /\ (truthy (C3_button # "webviewPresentation") = false ->
          params # "webview_presentation" = VNull)
      /\ (truthy (C3_button # "webviewPresentation") = true ->
          params # "webview_presentation" = C3_button # "webviewPresentation")
      /\ (truthy (C3_button # "landingPageUrl") = false ->
          params # "landing_page_url" = C3_button # "url")
      /\ (truthy (C3_button # "landingPageUrl") = true ->
          params # "landing_page_url" = C3_button # "landingPageUrl")
      /\ params # "url" = C3_button # "url".
Proof.
  split; [reflexivity | apply (C3_params_defaults C3_button); reflexivity].
Defined.

Lemma or_value_chain (u l e : value) :
  or_value (or_value u l) e
  = if truthy u then u else if truthy l then l else e.
Proof.
  unfold or_value. destruct (truthy u) eqn:Hu; [now rewrite Hu | reflexivity].
Qed.

Lemma nth_error_map_inv {A B : Type} (f : A -> B) (l : list A) (i : nat) (y : B) :
  nth_error (map f l) i = Some y ->
  exists x, nth_error l i = Some x /\ y = f x.
Proof.
  rewrite nth_error_map. destruct (nth_error l i) as [x |]; simpl; intro H;
    [| discriminate].
  exists x. split; [reflexivity | congruence].
Qed.

(** C4 as it is stated fails on a button whose url is the empty string and
    whose landingPageUrl is not: the parsed params have a url, the empty
    string, and canonical_url is the landing page all the same. *)
Lemma C4_counterexample :
  exists out btn parsed mp target,
    createIOSWebviewMessage C4_options = Normal out
    /\ output_buttons out = VArr [btn]
    /\ JSON_parse (btn # "buttonParamsJson") = Normal parsed
    /\ has_key parsed "url" = true
    /\ parsed # "url" = VStr EmptyString
    /\ JSON_parse (output_messageParamsJson out) = Normal mp
    /\ mp # "tap_target_list" = VArr [target]
    /\ target # "canonical_url" = VStr "https://y.com"
    /\ target # "canonical_url" <> parsed # "url".
Proof.
  eexists _, _, _, _, _.
  split; [vm_compute; reflexivity |].
  split; [vm_compute; reflexivity |].
  split; [vm_compute; reflexivity |].
  split; [vm_compute; reflexivity |].
  split; [vm_compute; reflexivity |].
  split; [vm_compute; reflexivity |].
  split; [vm_compute; reflexivity |].
  split; [vm_compute; reflexivity |].
  vm_compute. discriminate.
Qed.

(** C4, amended: the tap_target_list that is serialized into
    messageParamsJson has one entry for each output button named "cta_url",
    in their order; the entry at index i has url_type "STATIC",
    tap_target_format 1 and button_index i, and its canonical_url is the
    url of the button's parsed params if that is truthy, else their
    landing_page_url if that is truthy, else the empty string. *)
Theorem C4_tap_targets (options : value) :
  accepted options = true ->
  exists out processed targets,
    createIOSWebviewMessage options = Normal out
    /\ output_buttons out = VArr processed
    /\ output_messageParamsJson out = JSON_stringify (messageParams targets)
    /\ messageParams targets # "tap_target_list" = VArr targets
    /\ let urls :=
         filter (fun p => strict_eq_str (p # "name") "cta_url") processed in
       length targets = length urls
       /\ forall (i : nat) (btn : value),
           nth_error urls i = Some btn ->
           exists params,
             JSON_parse (btn # "buttonParamsJson") = Normal params
             /\ nth_error targets i
                = Some (VObj [("canonical_url",
                               if truthy (params # "url") then params # "url"
                               else if truthy (params # "landing_page_url")
                                    then params # "landing_page_url"
                                    else VStr EmptyString);
                              ("url_type", VStr "STATIC");
                              ("button_index", VNum (Z.of_nat i));
                              ("tap_target_format", VNum 1)]).
Proof.
  intro H. destruct (run_accepted options H) as (out & Hout & Hbuttons & Hjson).
  exists out, (map process (buttons_of options)), (targets_of (buttons_of options)).
  split; [exact Hout |]. split; [exact Hbuttons |]. split; [exact Hjson |].
  split; [reflexivity |].
  cbv zeta. rewrite filter_map_process. unfold targets_of.
  split; [now rewrite mapi_from_length, length_map |].
  intros i btn Hi.
  destruct (nth_error_map_inv _ _ _ _ Hi) as (b & Hb & ->).
  exists (parsed_params b). split; [apply JSON_parse_normalized |].
  rewrite mapi_from_nth, Hb. simpl option_map.
  unfold target_of. rewrite or_value_chain. reflexivity.
Qed.

Lemma C4_tap_targets_witness :
  accepted C4_options = true
  /\ exists out processed targets,
      createIOSWebviewMessage C4_options = Normal out
      /\ output_buttons out = VArr processed
      /\ output_messageParamsJson out = JSON_stringify (messageParams targets)
      /\ messageParams targets # "tap_target_list" = VArr targets
      /\ let urls :=
           filter (fun p => strict_eq_str (p # "name") "cta_url") processed in
         length targets = length urls
         /\ forall (i : nat) (btn : value),
             nth_error urls i = Some btn ->
             exists params,
               JSON_parse (btn # "buttonParamsJson") = Normal params
               /\ nth_error targets i
                  = Some (VObj [("canonical_url",
                                 if truthy (params # "url") then params # "url"
                                 else if truthy (params # "landing_page_url")
                                      then params # "landing_page_url"
                                      else VStr EmptyString);
                                ("url_type", VStr "STATIC");
                                ("button_index", VNum (Z.of_nat i));
                                ("tap_target_format", VNum 1)]).
Proof.
  split; [reflexivity | apply (C4_tap_targets C4_options); reflexivity].
Defined.

Lemma messageParams_keys_nodup (targets : list value) :
  match messageParams targets with
  | VObj ps => NoDup (map fst ps)
  | _ => False
  end.
Proof. simpl. repeat constructor; simpl; intuition discriminate. Qed.

(** C5: in the object that is serialized into messageParamsJson,
    tap_target_configuration is the first element of tap_target_list when
    there is one and the empty object when there is none, and bottom_sheet
    is the object with in_thread_buttons_limit 3 and divider_indices the
    empty array; JSON.parse of messageParamsJson gives an object in which
    the same holds. *)
Theorem C5_message_params (options : value) :
  accepted options = true ->
  exists out mp targets parsed parsed_targets,
    createIOSWebviewMessage options = Normal out
    /\ output_messageParamsJson out = JSON_stringify mp
    /\ mp # "tap_target_list" = VArr targets
    /\ mp # "tap_target_configuration"
       = match targets with
         | first :: _ => first
         | [] => VObj []
         end
    /\ mp # "bottom_sheet"
       = VObj [("in_thread_buttons_limit", VNum 3); ("divider_indices", VArr [])]
    /\ JSON_parse (output_messageParamsJson out) = Normal parsed
    /\ parsed # "tap_target_list" = VArr parsed_targets
    /\ length parsed_targets = length targets
    /\ parsed # "tap_target_configuration"
       = match parsed_targets with
         | first :: _ => first
         | [] => VObj []
         end
    /\ parsed # "bottom_sheet"
       = VObj [("in_thread_buttons_limit", VNum 3); ("divider_indices", VArr [])].
Proof.
  intro H. destruct (run_accepted options H) as (out & Hout & _ & Hjson).
  remember (targets_of (buttons_of options)) as targets eqn:Ht.
  exists out, (messageParams targets), targets,
    (json_image (messageParams targets)), (map json_image targets).
  split; [exact Hout |]. split; [exact Hjson |].
  split; [reflexivity |]. split; [reflexivity |]. split; [reflexivity |].
  split; [rewrite Hjson; apply JSON_parse_stringify; discriminate |].
  pose proof (messageParams_keys_nodup targets) as Hnd.
  unfold messageParams in *.
  rewrite !(field_json_image _ _ Hnd).
  split; [reflexivity |]. split; [apply length_map |].
  split; [| reflexivity].
  simpl own. destruct targets as [| first rest]; [reflexivity |].
  assert (Hfirst : exists ps, first = VObj ps).
  { unfold targets_of in Ht.
    destruct (filter url_like (buttons_of options)); [discriminate |].
    simpl in Ht. injection Ht as -> _. eexists. reflexivity. }
  destruct Hfirst as (ps & ->). reflexivity.
Qed.

Lemma C5_message_params_witness :
  accepted C5_options = true
  /\ exists out mp targets parsed parsed_targets,
      createIOSWebviewMessage C5_options = Normal out
      /\ output_messageParamsJson out = JSON_stringify mp
      /\ mp # "tap_target_list" = VArr targets
      /\ mp # "tap_target_configuration"
         = match targets with
           | first :: _ => first
           | [] => VObj []
           end
      /\ mp # "bottom_sheet"
         = VObj [("in_thread_buttons_limit", VNum 3); ("divider_indices", VArr [])]
      /\ JSON_parse (output_messageParamsJson out) = Normal parsed
      /\ parsed # "tap_target_list" = VArr parsed_targets
      /\ length parsed_targets = length targets
      /\ parsed # "tap_target_configuration"
         = match parsed_targets with
           | first :: _ => first
           | [] => VObj []
           end
      /\ parsed # "bottom_sheet"
         = VObj [("in_thread_buttons_limit", VNum 3); ("divider_indices", VArr [])].
Proof.
  split; [reflexivity | apply (C5_message_params C5_options); reflexivity].
Defined.

Lemma filter_nth {A : Type} (p : A -> bool) (l : list A) (i : nat) (a : A) :
  nth_error l i = Some a ->
  p a = true ->
  nth_error (filter p l) (length (filter p (firstn i l))) = Some a.
Proof.
  revert i. induction l as [| x l IH]; intros i Hi Ha.
  - destruct i; discriminate.
  - destruct i as [| i]; simpl in *.
    + injection Hi as ->. rewrite Ha. reflexivity.
    + destruct (p x); simpl; apply IH; assumption.
Qed.






(** C7: the returned interactiveMessage has a header exactly when one of
    imageMessage, title, subtitle is truthy, and a footer exactly when
    footerText is truthy, the footer being the object with text =
    footerText; in the header, hasMediaAttachment is the boolean value of
    imageMessage, and imageMessage, title and subtitle are each a property
    of the header exactly when truthy, with the value given. *)
Theorem C7_header_footer (options : value) :
  accepted options = true ->
  exists out,
    createIOSWebviewMessage options = Normal out
    /\ let message := out # "interactiveMessage" in
       let imageMessage := options # "imageMessage" in
       let title := options # "title" in
       let subtitle := options # "subtitle" in
       let footerText := options # "footerText" in
       has_key message "header"
       = truthy imageMessage || truthy title || truthy subtitle
       /\ has_key message "footer" = truthy footerText
       /\ (truthy footerText = true ->
           message # "footer" = VObj [("text", footerText)])
       /\ (has_key message "header" = true ->
           message # "header" # "hasMediaAttachment" = VBool (truthy imageMessage)
           /\ has_key (message # "header") "imageMessage" = truthy imageMessage
           /\ has_key (message # "header") "title" = truthy title
           /\ has_key (message # "header") "subtitle" = truthy subtitle
           /\ (truthy imageMessage = true ->
               message # "header" # "imageMessage" = imageMessage)
           /\ (truthy title = true -> message # "header" # "title" = title)
           /\ (truthy subtitle = true ->
               message # "header" # "subtitle" = subtitle)).
Proof.
  intro H. eexists. split; [apply createIOSWebviewMessage_accepted; exact H |].
  cbv zeta.
  change (VObj [("interactiveMessage", ?m)] # "interactiveMessage") with m.
  rewrite message_header_key, message_footer_key.
  split; [reflexivity |]. split; [reflexivity |].
  split; [apply message_footer |].
  intro Hh. rewrite (message_header _ _ _ _ _ _ _ _ Hh).
  apply header_fields.
Qed.

Lemma C7_header_footer_witness :
  accepted C7_options = true
  /\ exists out,
      createIOSWebviewMessage C7_options = Normal out
      /\ let message := out # "interactiveMessage" in
         let imageMessage := C7_options # "imageMessage" in
         let title := C7_options # "title" in
         let subtitle := C7_options # "subtitle" in
         let footerText := C7_options # "footerText" in
         has_key message "header"
         = truthy imageMessage || truthy title || truthy subtitle
         /\ has_key message "footer" = truthy footerText
         /\ (truthy footerText = true ->
             message # "footer" = VObj [("text", footerText)])
         /\ (has_key message "header" = true ->
             message # "header" # "hasMediaAttachment" = VBool (truthy imageMessage)
             /\ has_key (message # "header") "imageMessage" = truthy imageMessage
             /\ has_key (message # "header") "title" = truthy title
             /\ has_key (message # "header") "subtitle" = truthy subtitle
             /\ (truthy imageMessage = true ->
                 message # "header" # "imageMessage" = imageMessage)
             /\ (truthy title = true -> message # "header" # "title" = title)
             /\ (truthy subtitle = true ->
                 message # "header" # "subtitle" = subtitle)).
Proof.
  split; [reflexivity | apply (C7_header_footer C7_options); reflexivity].
Defined.

Lemma own_spread_into (target : list (string * value)) (source : value) (k : string) :
  NoDup (map fst (own_enumerable source)) ->
  own k (spread_into target source)
  = shallow_merge_spec target (own_enumerable source) k.
Proof.
  intro H. unfold spread_into, shallow_merge_spec.
  rewrite own_define_all, (own_rev k _ H). reflexivity.
Qed.

(** C8: the contextInfo of the returned interactiveMessage is the shallow
    merge of the default (dataSharingContext with showMmDisclosure false)
    with the caller's contextInfo: on every key the caller's entry when
    there is one, the default's otherwise, so that a caller's
    dataSharingContext replaces the default; it is the default itself when
    the caller gives no contextInfo. *)
Theorem C8_contextInfo_merge (options : value) :
  accepted options = true ->
  exists out ctx,
    createIOSWebviewMessage options = Normal out
    /\ out # "interactiveMessage" # "contextInfo" = VObj ctx
    /\ (options # "contextInfo" = VUndef -> ctx = default_contextInfo)
    /\ (forall ps,
          options # "contextInfo" = VObj ps ->
          NoDup (map fst ps) ->
          (forall k, own k ctx = shallow_merge_spec default_contextInfo ps k)
          /\ (forall v, own "dataSharingContext" ps = Some v ->
                        VObj ctx # "dataSharingContext" = v)
          /\ (own "dataSharingContext" ps = None ->
              VObj ctx # "dataSharingContext"
              = VObj [("showMmDisclosure", VBool false)])).
Proof.
  intro H. eexists _, _. split; [apply createIOSWebviewMessage_accepted; exact H |].
  change (VObj [("interactiveMessage", ?m)] # "interactiveMessage") with m.
  rewrite message_contextInfo. split; [reflexivity |].
  split; [intros ->; reflexivity |].
  intros ps -> Hnd.
  change (default_to (VObj []) (VObj ps)) with (VObj ps).
  assert (Hmerge : forall k,
             own k (spread_into default_contextInfo (VObj ps))
             = shallow_merge_spec default_contextInfo ps k).
  { intro k. apply (own_spread_into default_contextInfo (VObj ps) k Hnd). }
  split; [exact Hmerge |].
  unfold field. fold default_contextInfo.
  split.
  - intros v Hv. rewrite Hmerge. unfold shallow_merge_spec. now rewrite Hv.
  - intro Hv. rewrite Hmerge. unfold shallow_merge_spec. now rewrite Hv.
Qed.

Lemma C8_contextInfo_merge_witness :
  accepted C8_options = true
  /\ exists out ctx,
      createIOSWebviewMessage C8_options = Normal out
      /\ out # "interactiveMessage" # "contextInfo" = VObj ctx
      /\ (C8_options # "contextInfo" = VUndef -> ctx = default_contextInfo)
      /\ (forall ps,
            C8_options # "contextInfo" = VObj ps ->
            NoDup (map fst ps) ->
            (forall k, own k ctx = shallow_merge_spec default_contextInfo ps k)
            /\ (forall v, own "dataSharingContext" ps = Some v ->
                          VObj ctx # "dataSharingContext" = v)
            /\ (own "dataSharingContext" ps = None ->
                VObj ctx # "dataSharingContext"
                = VObj [("showMmDisclosure", VBool false)])).
Proof.
  split; [reflexivity | apply (C8_contextInfo_merge C8_options); reflexivity].
Defined.

(** ** Exceptions *)


Lemma processButton_nullish (b : value) :
  nullish b = true -> processButton b = Throw TypeError.
Proof.
  intro H. unfold processButton, is_url_button, get. rewrite H. reflexivity.
Qed.






(** C10: the catch clause of the tap target derivation is never entered.
    Every button that the filter keeps is one that the map has rebuilt: its
    buttonParamsJson is the text JSON.stringify has just made from the
    params of an input button, JSON.parse of it returns, and the try block
    runs to its end. *)
Theorem C10_catch_unreachable (options : value) :
  accepted options = true ->
  exists processed urls,
    processedButtons (default_to (VArr []) (options # "buttons")) = Normal processed
    /\ urlButtons processed = Normal urls
    /\ forall btn,
        In btn urls ->
        (exists b params,
            In b (buttons_of options)
            /\ buttonParams b = Normal params
            /\ btn = VObj [("name", VStr "cta_url");
                           ("buttonParamsJson", JSON_stringify params)])
        /\ (exists parsed, JSON_parse (btn # "buttonParamsJson") = Normal parsed)
        /\ (forall st, snd (try_block btn st) = Normal tt).
Proof.
  intro H. destruct (accepted_buttons options H) as (_ & Hbs & Hall).
  exists (map process (buttons_of options)),
    (map normalized (filter url_like (buttons_of options))).
  split; [rewrite Hbs; apply processedButtons_normal, Hall |].
  split; [apply urlButtons_normal, Hall |].
  intros btn Hin. apply in_map_iff in Hin. destruct Hin as (b & <- & Hb).
  apply filter_In in Hb. destruct Hb as [Hb Hlike].
  split.
  - exists b, (params_of b). split; [exact Hb |].
    split; [apply buttonParams_normal, url_like_not_nullish, Hlike | reflexivity].
  - split; [exists (parsed_params b); apply JSON_parse_normalized |].
    intro st. now rewrite try_block_normalized.
Qed.

Lemma C10_catch_unreachable_witness :
  accepted C10_options = true
  /\ exists processed urls,
      processedButtons (default_to (VArr []) (C10_options # "buttons"))
      = Normal processed
      /\ urlButtons processed = Normal urls
      /\ forall btn,
          In btn urls ->
          (exists b params,
              In b (buttons_of C10_options)
              /\ buttonParams b = Normal params
              /\ btn = VObj [("name", VStr "cta_url");
                             ("buttonParamsJson", JSON_stringify params)])
          /\ (exists parsed, JSON_parse (btn # "buttonParamsJson") = Normal parsed)
          /\ (forall st, snd (try_block btn st) = Normal tt).
Proof.
  split; [reflexivity | apply (C10_catch_unreachable C10_options); reflexivity].
Defined.

(** ** The examples of the specification *)

(** The message built for one webview button: the output button is named
    "cta_url" and its parsed params have the url, the landing page and the
    two defaults. *)
Example webview_button_example :
  exists out btn params,
    createIOSWebviewMessage
      (VObj [("bodyText", VStr "Hi");
             ("buttons",
              VArr [VObj [("type", VStr "webview"); ("text", VStr "Go");
                          ("url", VStr "https://x.com")]])])
    = Normal out
    /\ output_buttons out = VArr [btn]
    /\ btn # "name" = VStr "cta_url"
    /\ JSON_parse (btn # "buttonParamsJson") = Normal params
    /\ params # "url" = VStr "https://x.com"
    /\ params # "landing_page_url" = VStr "https://x.com"
    /\ params # "webview_interaction" = VBool true
    /\ params # "payment_link_preview" = VBool false.
Proof.
  eexists _, _, _.
  split; [vm_compute; reflexivity |].
  split; [vm_compute; reflexivity |].
  split; [vm_compute; reflexivity |].
  split; [vm_compute; reflexivity |].
  repeat split.
Qed.

(** A button made by [createWebviewButton] is one the message builder
    rebuilds, and the params keep what the factory was given. *)
Example factory_button_example :
  exists button params,
    createWebviewButton
      (VObj [("text", VStr "Pay"); ("url", VStr "https://pay.example");
             ("paymentLinkPreview", VBool true)])
    = Normal button
    /\ url_like button = true
    /\ buttonParams button = Normal params
    /\ params # "display_text" = VStr "Pay"
    /\ params # "payment_link_preview" = VBool true
    /\ params # "webview_interaction" = VBool true
    /\ params # "webview_presentation" = VNull
    /\ params # "landing_page_url" = VStr "https://pay.example".
Proof.
  eexists _, _.
  split; [vm_compute; reflexivity |].
  split; [vm_compute; reflexivity |].
  split; [vm_compute; reflexivity |].
  repeat split.
Qed.

(** * Further properties of the code *)

(** ** The button factory *)

Lemma createWebviewButton_normal (o : value) :
  nullish o = false -> createWebviewButton o = Normal (factory_button o).
Proof.
  intro H. unfold createWebviewButton, factory_button.
  rewrite !(get_normal o _ H). simpl bind. cbv zeta.
  rewrite or_else_value. reflexivity.
Qed.

Lemma default_to_defined (d v : value) :
  is_defined d = true -> is_defined (default_to d v) = true.
Proof. unfold default_to. destruct (is_defined v) eqn:E; auto. Qed.

(** X1: createWebviewButton throws a TypeError when its options are
    undefined or null and on nothing else; the button it returns has the
    seven properties type, displayText, url, landingPageUrl,
    webviewInteraction, paymentLinkPreview and webviewPresentation in that
    order, its type is "webview", so it passes the test of the message
    builder, and its three optional flags are never undefined. *)
Theorem X1_createWebviewButton_returns (o : value) :
  (nullish o = true -> createWebviewButton o = Throw TypeError)
  /\ (nullish o = false ->
      exists b,
        createWebviewButton o = Normal b
        /\ keys b = ["type"; "displayText"; "url"; "landingPageUrl";
                     "webviewInteraction"; "paymentLinkPreview";
                     "webviewPresentation"]
        /\ b # "type" = VStr "webview"
        /\ is_url_button b = Normal true
        /\ is_defined (b # "webviewInteraction") = true
        /\ is_defined (b # "paymentLinkPreview") = true
        /\ is_defined (b # "webviewPresentation") = true).
Proof.
  split.
  - intro H. unfold createWebviewButton, get. rewrite H. reflexivity.
  - intro H. exists (factory_button o).
    split; [apply createWebviewButton_normal, H |].
    split; [reflexivity |]. split; [reflexivity |]. split; [reflexivity |].
    unfold factory_button.
    change (VObj ?ps # "webviewInteraction")
      with (default_to (VBool true) (o # "webviewInteraction")).
    change (VObj ?ps # "paymentLinkPreview")
      with (default_to (VBool false) (o # "paymentLinkPreview")).
    change (VObj ?ps # "webviewPresentation")
      with (default_to VNull (o # "webviewPresentation")).
    repeat split; apply default_to_defined; reflexivity.
Qed.

Lemma X1_createWebviewButton_returns_witness :
  nullish VNull = true
  /\ nullish X1_options = false
  /\ createWebviewButton VNull = Throw TypeError
  /\ exists b,
      createWebviewButton X1_options = Normal b
      /\ keys b = ["type"; "displayText"; "url"; "landingPageUrl";
                   "webviewInteraction"; "paymentLinkPreview";
                   "webviewPresentation"]
      /\ b # "type" = VStr "webview"
      /\ is_url_button b = Normal true
      /\ is_defined (b # "webviewInteraction") = true
      /\ is_defined (b # "paymentLinkPreview") = true
      /\ is_defined (b # "webviewPresentation") = true.
Proof.
  split; [reflexivity |]. split; [reflexivity |]. split.
  - apply (proj1 (X1_createWebviewButton_returns VNull)). reflexivity.
  - apply (proj2 (X1_createWebviewButton_returns X1_options)). reflexivity.
Defined.

Lemma or_value_twice (a u : value) :
  or_value (or_value a u) u = or_value a u.
Proof.
  unfold or_value. destruct (truthy a) eqn:Ha; [now rewrite Ha |].
  destruct (truthy u); reflexivity.
Qed.

Lemma factory_params (o : value) :
  params_of (factory_button o)
  = VObj [("display_text", or_value (o # "text") VUndef);
          ("url", o # "url");
          ("webview_presentation", or_value (o # "webviewPresentation") VNull);
          ("payment_link_preview",
           default_to (VBool false) (o # "paymentLinkPreview"));
          ("landing_page_url", or_value (o # "landingPageUrl") (o # "url"));
          ("webview_interaction",
           default_to (VBool true) (o # "webviewInteraction"))].
Proof.
  unfold params_of, factory_button.
  change (VObj ?ps # "displayText") with (o # "text").
  change (VObj ?ps # "text") with VUndef.
  change (VObj ?ps # "url") with (o # "url").
  change (VObj ?ps # "landingPageUrl")
    with (or_value (o # "landingPageUrl") (o # "url")).
  change (VObj ?ps # "webviewInteraction")
    with (default_to (VBool true) (o # "webviewInteraction")).
  change (VObj ?ps # "paymentLinkPreview")
    with (default_to (VBool false) (o # "paymentLinkPreview")).
  change (VObj ?ps # "webviewPresentation")
    with (default_to VNull (o # "webviewPresentation")).
  rewrite or_value_twice.
  rewrite !default_to_defined by reflexivity.
  do 4 f_equal.
  unfold default_to, or_value.
  destruct (o # "webviewPresentation") as [| | [] | | | |]; reflexivity.
Qed.

(** X2: a button made by createWebviewButton and then rebuilt by the
    message builder has these params: display_text is the text when it is
    truthy and undefined otherwise (an empty text is lost, the rebuilt
    button has no text field to fall back on); url is the url;
    landing_page_url is the landingPageUrl when truthy, else the url;
    webview_interaction and payment_link_preview are what the caller gave,
    else true and false; webview_presentation is what the caller gave when
    truthy, else null. *)
Theorem X2_factory_then_params (o : value) :
  nullish o = false ->
  exists b params,
    createWebviewButton o = Normal b
    /\ buttonParams b = Normal params
    /\ processButton b
       = Normal (VObj [("name", VStr "cta_url");
                       ("buttonParamsJson", JSON_stringify params)])
    /\ params # "display_text"
       = (if truthy (o # "text") then o # "text" else VUndef)
    /\ params # "url" = o # "url"
    /\ params # "landing_page_url"
       = (if truthy (o # "landingPageUrl")
          then o # "landingPageUrl" else o # "url")
    /\ params # "webview_interaction"
       = (if is_defined (o # "webviewInteraction")
          then o # "webviewInteraction" else VBool true)
    /\ params # "payment_link_preview"
       = (if is_defined (o # "paymentLinkPreview")
          then o # "paymentLinkPreview" else VBool false)
    /\ params # "webview_presentation"
       = (if truthy (o # "webviewPresentation")
          then o # "webviewPresentation" else VNull).
Proof.
  intro H. exists (factory_button o), (params_of (factory_button o)).
  split; [apply createWebviewButton_normal, H |].
  split; [apply buttonParams_normal; reflexivity |].
  split; [rewrite processButton_normal by reflexivity; reflexivity |].
  rewrite factory_params. repeat split.
Qed.

Lemma X2_factory_then_params_witness :
  nullish X2_options = false
  /\ exists b params,
      createWebviewButton X2_options = Normal b
      /\ buttonParams b = Normal params
      /\ processButton b
         = Normal (VObj [("name", VStr "cta_url");
                         ("buttonParamsJson", JSON_stringify params)])
      /\ params # "display_text"
         = (if truthy (X2_options # "text") then X2_options # "text" else VUndef)
      /\ params # "url" = X2_options # "url"
      /\ params # "landing_page_url"
         = (if truthy (X2_options # "landingPageUrl")
            then X2_options # "landingPageUrl" else X2_options # "url")
      /\ params # "webview_interaction"
         = (if is_defined (X2_options # "webviewInteraction")
            then X2_options # "webviewInteraction" else VBool true)
      /\ params # "payment_link_preview"
         = (if is_defined (X2_options # "paymentLinkPreview")
            then X2_options # "paymentLinkPreview" else VBool false)
      /\ params # "webview_presentation"
         = (if truthy (X2_options # "webviewPresentation")
            then X2_options # "webviewPresentation" else VNull).
Proof.
  split; [reflexivity | apply (X2_factory_then_params X2_options); reflexivity].
Defined.

Lemma factory_url_like (o : value) : url_like (factory_button o) = true.
Proof. reflexivity. Qed.

Lemma filter_all {A : Type} (p : A -> bool) (l : list A) :
  Forall (fun a => p a = true) l -> filter p l = l.
Proof.
  induction 1 as [| a l Ha Hl IH]; simpl; [reflexivity |].
  rewrite Ha, IH. reflexivity.
Qed.

Lemma factory_list_accepted (bodyText : value) (os : list value) :
  accepted (VObj [("bodyText", bodyText);
                  ("buttons", VArr (map factory_button os))]) = true.
Proof.
  unfold accepted. simpl. induction os as [| o os IH]; simpl; auto.
Qed.

Lemma target_canonical (params : value) (index : nat) :
  target_of params index # "canonical_url"
  = if truthy (params # "url") then params # "url"
    else if truthy (params # "landing_page_url")
         then params # "landing_page_url" else VStr EmptyString.
Proof. unfold target_of. rewrite <- or_value_chain. reflexivity. Qed.

(** X3: when every button of a message comes from createWebviewButton, all
    of them are rebuilt, there is one tap target for each, the tap target
    of the button at position i is at position i with button_index i, and
    its canonical_url is the url the factory was given whenever that is a
    truthy string. *)
Theorem X3_factory_buttons_in_message (bodyText : value) (os : list value) :
  Forall (fun o => nullish o = false) os ->
  exists bs out processed targets,
    mapM createWebviewButton os = Normal bs
    /\ createIOSWebviewMessage
         (VObj [("bodyText", bodyText); ("buttons", VArr bs)]) = Normal out
    /\ output_buttons out = VArr processed
    /\ length processed = length os
    /\ Forall (fun p => p # "name" = VStr "cta_url") processed
    /\ output_messageParamsJson out = JSON_stringify (messageParams targets)
    /\ length targets = length os
    /\ forall (i : nat) (o : value),
        nth_error os i = Some o ->
        exists t,
          nth_error targets i = Some t
          /\ t # "button_index" = VNum (Z.of_nat i)
          /\ (truthy (o # "url") = true ->
              primitive (o # "url") = true ->
              t # "canonical_url" = o # "url").
Proof.
  intro Hos.
  set (options := VObj [("bodyText", bodyText);
                        ("buttons", VArr (map factory_button os))]).
  assert (Hacc : accepted options = true) by apply factory_list_accepted.
  destruct (run_accepted options Hacc) as (out & Hout & Hbuttons & Hjson).
  change (buttons_of options) with (map factory_button os) in *.
  assert (Hall : filter url_like (map factory_button os) = map factory_button os).
  { apply filter_all, Forall_map, Forall_forall. intros o _. reflexivity. }
  exists (map factory_button os), out, (map process (map factory_button os)),
    (targets_of (map factory_button os)).
  split.
  { apply mapM_normal. eapply Forall_impl; [| exact Hos].
    apply createWebviewButton_normal. }
  split; [exact Hout |]. split; [exact Hbuttons |].
  split; [now rewrite !length_map |].
  split.
  { apply Forall_map, Forall_map, Forall_forall. intros o _. reflexivity. }
  split; [exact Hjson |].
  unfold targets_of. rewrite Hall.
  split; [now rewrite mapi_from_length, length_map |].
  intros i o Hi. eexists. rewrite mapi_from_nth, nth_error_map, Hi.
  split; [reflexivity |]. split; [reflexivity |].
  intros Hu Hp. simpl plus. rewrite target_canonical, parsed_params_url.
  change (factory_button o # "url") with (o # "url").
  rewrite (carried_primitive _ Hp), Hu. reflexivity.
Qed.

Lemma X3_factory_buttons_in_message_witness :
  Forall (fun o => nullish o = false) X3_factory_inputs
  /\ exists bs out processed targets,
      mapM createWebviewButton X3_factory_inputs = Normal bs
      /\ createIOSWebviewMessage
           (VObj [("bodyText", VStr "Hi"); ("buttons", VArr bs)]) = Normal out
      /\ output_buttons out = VArr processed
      /\ length processed = length X3_factory_inputs
      /\ Forall (fun p => p # "name" = VStr "cta_url") processed
      /\ output_messageParamsJson out = JSON_stringify (messageParams targets)
      /\ length targets = length X3_factory_inputs
      /\ forall (i : nat) (o : value),
          nth_error X3_factory_inputs i = Some o ->
          exists t,
            nth_error targets i = Some t
            /\ t # "button_index" = VNum (Z.of_nat i)
            /\ (truthy (o # "url") = true ->
                primitive (o # "url") = true ->
                t # "canonical_url" = o # "url").
Proof.
  assert (H : Forall (fun o => nullish o = false) X3_factory_inputs).
  { repeat constructor. }
  split; [exact H |].
  apply (X3_factory_buttons_in_message (VStr "Hi") X3_factory_inputs H).
Defined.

(** ** The params a rebuilt button carries *)

Lemma processButton_url_like (b : value) :
  url_like b = true -> processButton b = Normal (normalized b).
Proof.
  intro H. rewrite (processButton_normal b (url_like_not_nullish b H)).
  unfold process. now rewrite H.
Qed.



Lemma own_json_image (k : string) (ps : list (string * value)) :
  NoDup (map fst ps) ->
  has_key (json_image (VObj ps)) k
  = match own k ps with
    | Some VUndef | None => false
    | Some _ => true
    end.
Proof.
  intro H. simpl json_image. rewrite images_kept. unfold has_key.
  rewrite own_define_all, (own_rev k _ (kept_keys_nodup ps H)), (own_images k ps H).
  simpl. destruct (own k ps) as [[] |]; reflexivity.
Qed.

Lemma parsed_params_key (b : value) (k : string) :
  has_key (parsed_params b) k = is_defined (params_of b # k).
Proof.
  unfold parsed_params.
  pose proof (params_keys_nodup b) as Hnd.
  unfold params_of in *. rewrite (own_json_image k _ Hnd). unfold field.
  destruct (own k _) as [[] |]; reflexivity.
Qed.

Lemma defined_field_in_keys (ps : list (string * value)) (k : string) :
  is_defined (VObj ps # k) = true -> In k (map fst ps).
Proof.
  unfold field. induction ps as [| [k' v] ps IH]; simpl; [discriminate |].
  destruct (String.eqb_spec k' k) as [-> | _]; [now left |].
  intro H. right. exact (IH H).
Qed.

Lemma or_null_defined (a : value) : is_defined (or_value a VNull) = true.
Proof.
  unfold or_value. destruct (truthy a) eqn:E; [| reflexivity].
  destruct a; reflexivity || discriminate E.
Qed.

Lemma default_flag_defined (a : value) (d : bool) :
  is_defined (if is_defined a then a else VBool d) = true.
Proof. destruct a; reflexivity. Qed.

(** X5: the JSON text of a rebuilt button always has the properties
    webview_presentation, payment_link_preview and webview_interaction; it
    has url exactly when the button's url is not undefined, display_text
    exactly when displayText || text is not undefined, landing_page_url
    exactly when landingPageUrl || url is not undefined; and it has no
    other property. *)
Theorem X5_params_keys (b : value) :
  url_like b = true ->
  exists btn parsed,
    processButton b = Normal btn
    /\ JSON_parse (btn # "buttonParamsJson") = Normal parsed
    /\ has_key parsed "webview_presentation" = true
    /\ has_key parsed "payment_link_preview" = true
    /\ has_key parsed "webview_interaction" = true
    /\ has_key parsed "url" = is_defined (b # "url")
    /\ has_key parsed "display_text"
       = is_defined (if truthy (b # "displayText")
                     then b # "displayText" else b # "text")
    /\ has_key parsed "landing_page_url"
       = is_defined (if truthy (b # "landingPageUrl")
                     then b # "landingPageUrl" else b # "url")
    /\ forall k, has_key parsed k = true ->
                 In k ["display_text"; "url"; "webview_presentation";
                       "payment_link_preview"; "landing_page_url";
                       "webview_interaction"].
Proof.
  intro H. exists (normalized b), (parsed_params b).
  split; [apply processButton_url_like, H |].
  split; [apply JSON_parse_normalized |].
  rewrite !parsed_params_key.
  split; [apply or_null_defined |].
  split; [apply default_flag_defined |].
  split; [apply default_flag_defined |].
  split; [reflexivity |]. split; [reflexivity |]. split; [reflexivity |].
  intros k Hk. rewrite parsed_params_key in Hk.
  apply (defined_field_in_keys _ _ Hk).
Qed.

Lemma X5_params_keys_witness :
  url_like X5_button = true
  /\ exists btn parsed,
      processButton X5_button = Normal btn
      /\ JSON_parse (btn # "buttonParamsJson") = Normal parsed
      /\ has_key parsed "webview_presentation" = true
      /\ has_key parsed "payment_link_preview" = true
      /\ has_key parsed "webview_interaction" = true
      /\ has_key parsed "url" = is_defined (X5_button # "url")
      /\ has_key parsed "display_text"
         = is_defined (if truthy (X5_button # "displayText")
                       then X5_button # "displayText" else X5_button # "text")
      /\ has_key parsed "landing_page_url"
         = is_defined (if truthy (X5_button # "landingPageUrl")
                       then X5_button # "landingPageUrl" else X5_button # "url")
      /\ forall k, has_key parsed k = true ->
                   In k ["display_text"; "url"; "webview_presentation";
                         "payment_link_preview"; "landing_page_url";
                         "webview_interaction"].
Proof.
  split; [reflexivity | apply (X5_params_keys X5_button); reflexivity].
Defined.

(** ** Tap targets and positions *)

Lemma filter_length_le {A : Type} (p : A -> bool) (l : list A) :
  length (filter p l) <= length l.
Proof.
  induction l as [| a l IH]; simpl; [lia |]. destruct (p a); simpl; lia.
Qed.

Lemma filter_length_all {A : Type} (p : A -> bool) (l : list A) :
  length (filter p l) = length l <-> forallb p l = true.
Proof.
  induction l as [| a l IH]; simpl; [tauto |].
  pose proof (filter_length_le p l).
  destruct (p a); simpl; [rewrite <- IH; lia |].
  split; [lia | discriminate].
Qed.

(** X6: the button_index of a tap target counts URL buttons only.  The
    webview or cta_url button at position i of the input is rebuilt at
    position i of the output buttons; that rebuilt button is at position j
    of the buttons the filter keeps, and the tap target the callback makes
    of it at index j is the one at position j of tap_target_list, with
    button_index j, where j is the number of webview or cta_url buttons
    before position i; j is at most i, and is i exactly when every button
    before it is a webview or cta_url button.  There are as many tap
    targets as such buttons. *)
Theorem X6_button_index_counts_url_buttons (options : value) (i : nat) (b : value) :
  accepted options = true ->
  nth_error (buttons_of options) i = Some b ->
  url_like b = true ->
  exists out processed urls targets btn t,
    createIOSWebviewMessage options = Normal out
    /\ output_buttons out = VArr processed
    /\ urlButtons processed = Normal urls
    /\ tapTargetList urls = Normal targets
    /\ output_messageParamsJson out = JSON_stringify (messageParams targets)
    /\ length targets = length (filter url_like (buttons_of options))
    /\ length targets <= length (buttons_of options)
    /\ processButton b = Normal btn
    /\ nth_error processed i = Some btn
    /\ let j := length (filter url_like (firstn i (buttons_of options))) in
       nth_error urls j = Some btn
       /\ tapTarget btn j = Normal t
       /\ nth_error targets j = Some t
       /\ t # "button_index" = VNum (Z.of_nat j)
       /\ j <= i
       /\ (j = i <-> forallb url_like (firstn i (buttons_of options)) = true).
Proof.
  intros H Hi Hlike.
  destruct (run_accepted options H) as (out & Hout & Hbuttons & Hjson).
  destruct (accepted_buttons options H) as (_ & _ & Hall).
  set (bs := buttons_of options) in *.
  set (j := length (filter url_like (firstn i bs))).
  exists out, (map process bs), (map normalized (filter url_like bs)),
    (targets_of bs), (normalized b), (target_of (parsed_params b) j).
  split; [exact Hout |]. split; [exact Hbuttons |].
  split; [apply urlButtons_normal, Hall |].
  split; [apply tapTargetList_normal |].
  split; [exact Hjson |].
  unfold targets_of. rewrite mapi_from_length.
  split; [reflexivity |]. split; [apply filter_length_le |].
  split; [apply processButton_url_like, Hlike |].
  split; [rewrite nth_error_map, Hi; simpl; unfold process; now rewrite Hlike |].
  assert (Hlen : length (firstn i bs) = i).
  { apply firstn_length_le. apply Nat.lt_le_incl, nth_error_Some. congruence. }
  assert (Hj : nth_error (filter url_like bs) j = Some b).
  { subst j. apply filter_nth; assumption. }
  cbv zeta. fold j.
  split; [rewrite nth_error_map, Hj; reflexivity |].
  split; [apply tapTarget_normalized |].
  split; [rewrite mapi_from_nth, Hj; reflexivity |].
  split; [reflexivity |].
  pose proof (filter_length_le url_like (firstn i bs)) as Hle.
  split; [subst j; lia |].
  rewrite <- filter_length_all. subst j. rewrite Hlen. tauto.
Qed.

Lemma X6_button_index_counts_url_buttons_witness :
  accepted X6_options = true
  /\ nth_error (buttons_of X6_options) 1 = Some X6_button
  /\ url_like X6_button = true
  /\ exists out processed urls targets btn t,
      createIOSWebviewMessage X6_options = Normal out
      /\ output_buttons out = VArr processed
      /\ urlButtons processed = Normal urls
      /\ tapTargetList urls = Normal targets
      /\ output_messageParamsJson out = JSON_stringify (messageParams targets)
      /\ length targets = length (filter url_like (buttons_of X6_options))
      /\ length targets <= length (buttons_of X6_options)
      /\ processButton X6_button = Normal btn
      /\ nth_error processed 1 = Some btn
      /\ let j := length (filter url_like (firstn 1 (buttons_of X6_options))) in
         nth_error urls j = Some btn
         /\ tapTarget btn j = Normal t
         /\ nth_error targets j = Some t
         /\ t # "button_index" = VNum (Z.of_nat j)
         /\ j <= 1
         /\ (j = 1 <-> forallb url_like (firstn 1 (buttons_of X6_options)) = true).
Proof.
  split; [reflexivity |]. split; [reflexivity |]. split; [reflexivity |].
  apply (X6_button_index_counts_url_buttons X6_options 1 X6_button); reflexivity.
Defined.

(** ** A second pass *)

Lemma process_twice (b : value) :
  process (process b) = if url_like b then bare_button else b.
Proof.
  unfold process at 2. destruct (url_like b) eqn:E.
  - reflexivity.
  - unfold process. now rewrite E.
Qed.

Lemma tapTarget_bare (index : nat) :
  tapTarget bare_button index = Normal (empty_target index).
Proof.
  change bare_button with (normalized (VObj [("name", VStr "cta_url")])).
  rewrite tapTarget_normalized. unfold target_of, empty_target.
  do 3 f_equal.
Qed.

(** X7: the map is not idempotent.  Given its own output buttons again, it
    rebuilds every button named "cta_url" from fields that button no
    longer has: the result is the same bare button for all of them, whose
    params have lost display_text, url and landing_page_url, and whose tap
    target has the empty canonical_url; the other buttons stay as they
    are. *)
Theorem X7_second_pass_loses_url (options : value) :
  accepted options = true ->
  exists out processed again,
    createIOSWebviewMessage options = Normal out
    /\ output_buttons out = VArr processed
    /\ processedButtons (VArr processed) = Normal again
    /\ length again = length processed
    /\ (exists parsed,
          JSON_parse (bare_button # "buttonParamsJson") = Normal parsed
          /\ keys parsed = ["webview_presentation"; "payment_link_preview";
                            "webview_interaction"])
    /\ (forall index, tapTarget bare_button index = Normal (empty_target index))
    /\ forall (i : nat) (p : value),
        nth_error processed i = Some p ->
        (strict_eq_str (p # "name") "cta_url" = true ->
         nth_error again i = Some bare_button)
        /\ (strict_eq_str (p # "name") "cta_url" = false ->
            nth_error again i = Some p).
Proof.
  intro H. destruct (run_accepted options H) as (out & Hout & Hbuttons & _).
  destruct (accepted_buttons options H) as (_ & _ & Hall).
  set (bs := buttons_of options) in *.
  exists out, (map process bs), (map process (map process bs)).
  split; [exact Hout |]. split; [exact Hbuttons |].
  split.
  { apply processedButtons_normal, Forall_map.
    eapply Forall_impl; [| exact Hall]. apply process_not_nullish. }
  split; [now rewrite !length_map |].
  split; [eexists; split; vm_compute; reflexivity |].
  split; [apply tapTarget_bare |].
  intros i p Hi.
  destruct (nth_error_map_inv _ _ _ _ Hi) as (b & Hb & ->).
  rewrite nth_error_map, Hi. simpl option_map.
  rewrite process_twice, process_name.
  split; intro E; rewrite E; [reflexivity |].
  unfold process. rewrite E. reflexivity.
Qed.

Lemma X7_second_pass_loses_url_witness :
  accepted X7_options = true
  /\ exists out processed again,
      createIOSWebviewMessage X7_options = Normal out
      /\ output_buttons out = VArr processed
      /\ processedButtons (VArr processed) = Normal again
      /\ length again = length processed
      /\ (exists parsed,
            JSON_parse (bare_button # "buttonParamsJson") = Normal parsed
            /\ keys parsed = ["webview_presentation"; "payment_link_preview";
                              "webview_interaction"])
      /\ (forall index, tapTarget bare_button index = Normal (empty_target index))
      /\ forall (i : nat) (p : value),
          nth_error processed i = Some p ->
          (strict_eq_str (p # "name") "cta_url" = true ->
           nth_error again i = Some bare_button)
          /\ (strict_eq_str (p # "name") "cta_url" = false ->
              nth_error again i = Some p).
Proof.
  split; [reflexivity | apply (X7_second_pass_loses_url X7_options); reflexivity].
Defined.

(** ** The tap target callback on any button *)

(** X8: what the tap target callback returns for any button, rebuilt or
    not.  When reading or parsing buttonParamsJson throws (the button is
    null, the text is not JSON), and when the text parses to null, the
    catch clause leaves both locals empty and the tap target has the empty
    canonical_url; when the text parses to any other value, canonical_url
    is that value's url if truthy, else its landing_page_url if truthy,
    else the empty string.  The index is copied in every case. *)
Theorem X8_tapTarget_catch (button : value) (index : nat) :
  (forall e, parse_params button = Throw e ->
             tapTarget button index = Normal (empty_target index))
  /\ (forall params, parse_params button = Normal params ->
                     nullish params = true ->
                     tapTarget button index = Normal (empty_target index))
  /\ (forall params, parse_params button = Normal params ->
                     nullish params = false ->
                     tapTarget button index
                     = Normal (VObj [("canonical_url",
                                      if truthy (params # "url")
                                      then params # "url"
                                      else if truthy (params # "landing_page_url")
                                           then params # "landing_page_url"
                                           else VStr EmptyString);
                                     ("url_type", VStr "STATIC");
                                     ("button_index", VNum (Z.of_nat index));
                                     ("tap_target_format", VNum 1)])).
Proof.
  unfold parse_params, tapTarget, try_block.
  split; [| split].
  - intros e ->. reflexivity.
  - intros params -> Hn. unfold canonical_of, get. rewrite Hn. reflexivity.
  - intros params -> Hn.
    rewrite (canonical_of_normal params Hn), (landing_of_normal params Hn).
    simpl. rewrite or_value_chain. reflexivity.
Qed.

Lemma X8_tapTarget_catch_witness :
  parse_params X8_button = Throw SyntaxError
  /\ parse_params X8_null_button = Normal VNull
  /\ parse_params X8_parsed_button = Normal X8_params
  /\ nullish X8_params = false
  /\ tapTarget X8_button 0 = Normal (empty_target 0)
  /\ tapTarget X8_null_button 1 = Normal (empty_target 1)
  /\ tapTarget X8_parsed_button 2
     = Normal (VObj [("canonical_url",
                      if truthy (X8_params # "url")
                      then X8_params # "url"
                      else if truthy (X8_params # "landing_page_url")
                           then X8_params # "landing_page_url"
                           else VStr EmptyString);
                     ("url_type", VStr "STATIC");
                     ("button_index", VNum (Z.of_nat 2));
                     ("tap_target_format", VNum 1)]).
Proof.
  assert (H1 : parse_params X8_button = Throw SyntaxError)
    by (vm_compute; reflexivity).
  assert (H2 : parse_params X8_null_button = Normal VNull)
    by (vm_compute; reflexivity).
  assert (H3 : parse_params X8_parsed_button = Normal X8_params)
    by (vm_compute; reflexivity).
  split; [exact H1 |]. split; [exact H2 |]. split; [exact H3 |].
  split; [reflexivity |].
  split; [exact (proj1 (X8_tapTarget_catch X8_button 0) SyntaxError H1) |].
  split.
  - exact (proj1 (proj2 (X8_tapTarget_catch X8_null_button 1)) VNull H2 eq_refl).
  - exact (proj2 (proj2 (X8_tapTarget_catch X8_parsed_button 2))
             X8_params H3 eq_refl).
Defined.

(** ** Messages without URL buttons *)

Lemma map_process_none (bs : list value) :
  filter url_like bs = [] -> map process bs = bs.
Proof.
  induction bs as [| b bs IH]; simpl; [reflexivity |].
  unfold process at 1. destruct (url_like b); [discriminate |].
  intro H. now rewrite (IH H).
Qed.

(** X9: when no button is a webview or cta_url button, and so when there
    are no buttons at all, every button is returned as it was given, and
    messageParamsJson is the text of the object whose bottom_sheet is the
    fixed one, whose tap_target_configuration is the empty object and
    whose tap_target_list is the empty array. *)
Theorem X9_no_url_buttons (options : value) :
  accepted options = true ->
  filter url_like (buttons_of options) = [] ->
  exists out,
    createIOSWebviewMessage options = Normal out
    /\ output_buttons out = VArr (buttons_of options)
    /\ output_messageParamsJson out = JSON_stringify (messageParams [])
    /\ JSON_parse (output_messageParamsJson out)
       = Normal (VObj [("bottom_sheet",
                        VObj [("in_thread_buttons_limit", VNum 3);
                              ("divider_indices", VArr [])]);
                       ("tap_target_configuration", VObj []);
                       ("tap_target_list", VArr [])]).
Proof.
  intros H Hnone.
  destruct (run_accepted options H) as (out & Hout & Hbuttons & Hjson).
  exists out. split; [exact Hout |].
  split; [rewrite Hbuttons, (map_process_none _ Hnone); reflexivity |].
  unfold targets_of in Hjson. rewrite Hnone in Hjson. simpl mapi_from in Hjson.
  split; [exact Hjson |].
  rewrite Hjson. vm_compute. reflexivity.
Qed.

Lemma X9_no_url_buttons_witness :
  accepted X9_options = true
  /\ filter url_like (buttons_of X9_options) = []
  /\ exists out,
      createIOSWebviewMessage X9_options = Normal out
      /\ output_buttons out = VArr (buttons_of X9_options)
      /\ output_messageParamsJson out = JSON_stringify (messageParams [])
      /\ JSON_parse (output_messageParamsJson out)
         = Normal (VObj [("bottom_sheet",
                          VObj [("in_thread_buttons_limit", VNum 3);
                                ("divider_indices", VArr [])]);
                         ("tap_target_configuration", VObj []);
                         ("tap_target_list", VArr [])]).
Proof.
  split; [reflexivity |]. split; [reflexivity |].
  apply (X9_no_url_buttons X9_options); reflexivity.
Defined.

(** ** The layout of the result *)

Lemma message_keys
  (bodyText footerText title subtitle imageMessage contextInfo : value)
  (processed : list value) (messageParamsJson : value) :
  map fst (interactiveMessage bodyText footerText title subtitle imageMessage
             contextInfo processed messageParamsJson)
  = ["body"; "nativeFlowMessage"; "contextInfo"]
    ++ (if truthy imageMessage || truthy title || truthy subtitle
        then ["header"] else [])
    ++ (if truthy footerText then ["footer"] else []).
Proof.
  unfold interactiveMessage.
  destruct (truthy imageMessage || truthy title || truthy subtitle);
    destruct (truthy footerText); reflexivity.
Qed.

Lemma header_keys (imageMessage title subtitle : value) :
  map fst (header imageMessage title subtitle)
  = ["hasMediaAttachment"]
    ++ (if truthy imageMessage then ["imageMessage"] else [])
    ++ (if truthy title then ["title"] else [])
    ++ (if truthy subtitle then ["subtitle"] else []).
Proof.
  unfold header.
  destruct (truthy imageMessage); destruct (truthy title);
    destruct (truthy subtitle); reflexivity.
Qed.

(** X10: the returned object has the one property interactiveMessage; the
    properties of that message are body, nativeFlowMessage and contextInfo,
    then header when there is one, then footer when there is one, and
    nothing else, whatever else the options hold; body is the object with
    text = bodyText, undefined when no bodyText is given;
    nativeFlowMessage has buttons and messageParamsJson; and the
    properties of a header are hasMediaAttachment, then imageMessage,
    title and subtitle, each when truthy. *)
Theorem X10_message_layout (options : value) :
  accepted options = true ->
  exists out,
    createIOSWebviewMessage options = Normal out
    /\ keys out = ["interactiveMessage"]
    /\ let message := out # "interactiveMessage" in
       let has_header :=
         truthy (options # "imageMessage") || truthy (options # "title")
         || truthy (options # "subtitle") in
       keys message
       = ["body"; "nativeFlowMessage"; "contextInfo"]
         ++ (if has_header then ["header"] else [])
         ++ (if truthy (options # "footerText") then ["footer"] else [])
       /\ message # "body" = VObj [("text", options # "bodyText")]
       /\ keys (message # "nativeFlowMessage") = ["buttons"; "messageParamsJson"]
       /\ (has_header = true ->
           keys (message # "header")
           = ["hasMediaAttachment"]
             ++ (if truthy (options # "imageMessage") then ["imageMessage"] else [])
             ++ (if truthy (options # "title") then ["title"] else [])
             ++ (if truthy (options # "subtitle") then ["subtitle"] else [])).
Proof.
  intro H. eexists. split; [apply createIOSWebviewMessage_accepted; exact H |].
  split; [reflexivity |]. cbv zeta.
  change (VObj [("interactiveMessage", ?m)] # "interactiveMessage") with m.
  split; [apply message_keys |].
  split; [apply message_body |].
  split; [rewrite message_nativeFlowMessage; reflexivity |].
  intro Hh. rewrite (message_header _ _ _ _ _ _ _ _ Hh). apply header_keys.
Qed.

Lemma X10_message_layout_witness :
  accepted X10_options = true
  /\ exists out,
      createIOSWebviewMessage X10_options = Normal out
      /\ keys out = ["interactiveMessage"]
      /\ let message := out # "interactiveMessage" in
         let has_header :=
           truthy (X10_options # "imageMessage") || truthy (X10_options # "title")
           || truthy (X10_options # "subtitle") in
         keys message
         = ["body"; "nativeFlowMessage"; "contextInfo"]
           ++ (if has_header then ["header"] else [])
           ++ (if truthy (X10_options # "footerText") then ["footer"] else [])
         /\ message # "body" = VObj [("text", X10_options # "bodyText")]
         /\ keys (message # "nativeFlowMessage") = ["buttons"; "messageParamsJson"]
         /\ (has_header = true ->
             keys (message # "header")
             = ["hasMediaAttachment"]
               ++ (if truthy (X10_options # "imageMessage")
                   then ["imageMessage"] else [])
               ++ (if truthy (X10_options # "title") then ["title"] else [])
               ++ (if truthy (X10_options # "subtitle") then ["subtitle"] else [])).
Proof.
  split; [reflexivity | apply (X10_message_layout X10_options); reflexivity].
Defined.

(** ** The spread of any contextInfo *)

(** X11: the spread of contextInfo never throws and takes any value.  On
    every key the merged contextInfo holds the last entry the caller's
    value has for it among its own enumerable properties, and the default
    when it has none; so a contextInfo that is null, a number or a boolean
    (and an empty object, array or string) leaves exactly the default. *)
Theorem X11_contextInfo_any_value (options : value) :
  accepted options = true ->
  exists out ctx,
    createIOSWebviewMessage options = Normal out
    /\ out # "interactiveMessage" # "contextInfo" = VObj ctx
    /\ let given :=
         own_enumerable (default_to (VObj []) (options # "contextInfo")) in
       (forall k,
           own k ctx = match own k (rev given) with
                       | Some v => Some v
                       | None => own k default_contextInfo
                       end)
       /\ (given = [] -> ctx = default_contextInfo).
Proof.
  intro H. eexists _, _. split; [apply createIOSWebviewMessage_accepted; exact H |].
  change (VObj [("interactiveMessage", ?m)] # "interactiveMessage") with m.
  rewrite message_contextInfo. split; [reflexivity |]. cbv zeta.
  unfold spread_into. fold default_contextInfo. split.
  - intro k. apply own_define_all.
  - intros ->. reflexivity.
Qed.

Lemma X11_contextInfo_any_value_witness :
  accepted X11_options = true
  /\ exists out ctx,
      createIOSWebviewMessage X11_options = Normal out
      /\ out # "interactiveMessage" # "contextInfo" = VObj ctx
      /\ let given :=
           own_enumerable (default_to (VObj []) (X11_options # "contextInfo")) in
         (forall k,
             own k ctx = match own k (rev given) with
                         | Some v => Some v
                         | None => own k default_contextInfo
                         end)
         /\ (given = [] -> ctx = default_contextInfo).
Proof.
  split; [reflexivity | apply (X11_contextInfo_any_value X11_options); reflexivity].
Defined.

(** ** Buttons that are not objects *)

Lemma url_like_object (b : value) :
  url_like b = true -> exists ps, b = VObj ps.
Proof. destruct b; simpl; intro H; try discriminate H. eexists; reflexivity. Qed.

(** X12: the callback of the map reads a button before it looks at it: on
    undefined and on null it throws a TypeError, and every other value
    that is not an object (a string, a number, a boolean, an array) has
    neither type nor name, is returned as it is and gets no tap target. *)
Theorem X12_processButton_non_objects (b : value) :
  (nullish b = true -> processButton b = Throw TypeError)
  /\ (nullish b = false ->
      (forall ps, b <> VObj ps) ->
      processButton b = Normal b
      /\ named_cta_url b = Normal false).
Proof.
  split; [apply processButton_nullish |].
  intros Hb Hno.
  assert (Hlike : url_like b = false).
  { destruct (url_like b) eqn:E; [| reflexivity].
    destruct (url_like_object b E) as (ps & ->). now destruct (Hno ps). }
  split.
  - rewrite (processButton_normal b Hb). unfold process. now rewrite Hlike.
  - unfold named_cta_url. rewrite (get_normal b "name" Hb). simpl.
    unfold url_like in Hlike. apply orb_false_elim in Hlike.
    now rewrite (proj2 Hlike).
Qed.

Lemma X12_processButton_non_objects_witness :
  nullish VUndef = true
  /\ nullish (VStr "plain") = false
  /\ processButton VUndef = Throw TypeError
  /\ processButton (VStr "plain") = Normal (VStr "plain")
  /\ named_cta_url (VStr "plain") = Normal false.
Proof.
  split; [reflexivity |]. split; [reflexivity |]. split.
  - apply (proj1 (X12_processButton_non_objects VUndef)). reflexivity.
  - apply (proj2 (X12_processButton_non_objects (VStr "plain"))).
    + reflexivity.
    + intros ps. discriminate.
Defined.
